(** * Export orchestrator of sql_maintenance: scripts/duckdb_export.py

    A shallow embedding of [DuckDBExporter] (sort-order selection, scan
    adapter construction, the per-table export with its ledger, the export
    loop and the run) together with the properties of its specification. *)

From Stdlib Require Import String Ascii List Bool Arith Lia DecimalString.
Import ListNotations.
Open Scope list_scope.
Open Scope string_scope.

(** ** Python string primitives used by the exporter *)

Module PyStr.

(** Characters that cannot stand in a literal: the double quote, the line
    feed, and the two marks the exporter prints (UTF-8 encoded). *)
Definition dquote_char : ascii := ascii_of_nat 34.
Definition dquote : string := String dquote_char EmptyString.
Definition nl : string := String (ascii_of_nat 10) EmptyString.
Definition check_mark : string :=
  String (ascii_of_nat 226) (String (ascii_of_nat 156)
    (String (ascii_of_nat 147) EmptyString)).
Definition ballot_x : string :=
  String (ascii_of_nat 226) (String (ascii_of_nat 156)
    (String (ascii_of_nat 151) EmptyString)).

(** [str(n)] for a non-negative integer. *)
Definition of_nat (n : nat) : string := NilEmpty.string_of_uint (Nat.to_uint n).

(** [c * n] *)
Fixpoint times (c : string) (n : nat) : string :=
  match n with
  | O => EmptyString
  | S k => c ++ times c k
  end.

(** A triple-quoted literal opened at the end of a line: a line feed, then
    each source line with its indentation and a line feed, then the
    indentation that stands before the closing quotes. *)
Definition block (lines : list (nat * string)) (closing : nat) : string :=
  nl ++ String.concat EmptyString
          (map (fun l => times " " (fst l) ++ snd l ++ nl) lines)
     ++ times " " closing.

(** [sep.join(parts)] *)
Definition join (sep : string) (parts : list string) : string :=
  String.concat sep parts.

(** [s.startswith(p)] *)
Fixpoint startswith (p s : string) : bool :=
  match p, s with
  | EmptyString, _ => true
  | String _ _, EmptyString => false
  | String a p', String b s' => if Ascii.eqb a b then startswith p' s' else false
  end.

(** Left-to-right scan of [str.replace] for a non-empty pattern: [skip] counts
    the characters of a match that are still to be dropped. *)
Fixpoint replace_scan (old new : string) (skip : nat) (s : string) : string :=
  match s with
  | EmptyString => EmptyString
  | String c s' =>
      match skip with
      | S k => replace_scan old new k s'
      | O =>
          if startswith old s
          then new ++ replace_scan old new (String.length old - 1) s'
          else String c (replace_scan old new 0 s')
      end
  end.

(** With an empty pattern Python puts [new] around every character. *)
Fixpoint replace_empty (new s : string) : string :=
  match s with
  | EmptyString => new
  | String c s' => new ++ String c (replace_empty new s')
  end.

(** [s.replace(old, new)]: every non-overlapping occurrence, leftmost first. *)
Definition replace (old new s : string) : string :=
  match old with
  | EmptyString => replace_empty new s
  | String _ _ => replace_scan old new 0 s
  end.

(** [c in s] for a single character. *)
Fixpoint contains_char (c : ascii) (s : string) : bool :=
  match s with
  | EmptyString => false
  | String a s' => if Ascii.eqb a c then true else contains_char c s'
  end.

(** [sub in s] *)
Fixpoint contains (sub s : string) : bool :=
  if startswith sub s then true
  else match s with
       | EmptyString => false
       | String _ s' => contains sub s'
       end.

End PyStr.

(** ** Data model: the dictionaries produced by the metadata extractors *)

(** An entry of [table_info['columns']]; only ['name'] is read here. *)
Record ColumnInfo := mkColumn { col_name : string }.

(** [table_info['primary_key']]: [None] or a dictionary with the keys
    ['name'], ['type'] and ['columns'].  Such a dictionary is never empty, so
    it is truthy whatever its column list holds. *)
Record KeyInfo := mkKey {
  key_name : string;
  key_type : string;
  key_columns : list string
}.

(** An entry of [table_info['indexes']]. *)
Record IndexInfo := mkIndex {
  idx_name : string;
  idx_type : string;
  idx_is_unique : bool;
  idx_columns : list string
}.

Record TableInfo := mkTable {
  schema : string;
  name : string;
  full_name : string;
  ddl : string;
  columns : list ColumnInfo;
  primary_key : option KeyInfo;
  indexes : list IndexInfo
}.

(** ** Sort-order selection *)

(** [', '.join([f'"{col}"' for col in cols])] *)
Definition quote_col (col : string) : string :=
  PyStr.dquote ++ col ++ PyStr.dquote.

Definition quoted_list (cols : list string) : string :=
  PyStr.join ", " (map quote_col cols).

(** [for index in indexes: if cond(index): return index] *)
Fixpoint first_index (cond : IndexInfo -> bool) (l : list IndexInfo)
  : option IndexInfo :=
  match l with
  | [] => None
  | index :: rest => if cond index then Some index else first_index cond rest
  end.

Definition is_clustered (index : IndexInfo) : bool :=
  idx_type index =? "CLUSTERED".

(** [get_table_sort_order]: the console line it prints (if any) and the
    value it returns. *)
Definition get_table_sort_order (table_info : TableInfo)
  : option string * string :=
  match primary_key table_info with
  | Some pk =>
      let pk_cols := key_columns pk in
      (Some ("Using primary key for sort order: " ++ PyStr.join ", " pk_cols),
       quoted_list pk_cols)
  | None =>
      match first_index is_clustered (indexes table_info) with
      | Some index =>
          let idx_cols := idx_columns index in
          (Some ("Using clustered index for sort order: "
                 ++ PyStr.join ", " idx_cols),
           quoted_list idx_cols)
      | None =>
          match first_index idx_is_unique (indexes table_info) with
          | Some index =>
              let idx_cols := idx_columns index in
              (Some ("Using unique index for sort order: "
                     ++ PyStr.join ", " idx_cols),
               quoted_list idx_cols)
          | None =>
              match columns table_info with
              | first :: _ =>
                  let first_col := col_name first in
                  (Some ("Using first column for sort order: " ++ first_col),
                   quote_col first_col)
              | [] => (None, "")
              end
          end
      end
  end.

Definition sort_order (table_info : TableInfo) : string :=
  snd (get_table_sort_order table_info).

(** ** Exceptions, observable events and the exporter's state *)

(** The exceptions the orchestrator meets: the [ValueError] it raises itself,
    and whatever a collaborator (DuckDB, a driver, the operating system)
    raises.  [str_exn] is [str(e)]. *)
Inductive exn :=
| ValueError (msg : string)
| CollaboratorError (msg : string).

Definition str_exn (e : exn) : string :=
  match e with
  | ValueError msg => msg
  | CollaboratorError msg => msg
  end.

Inductive event :=
| Print (line : string)      (* a line on standard output *)
| Stderr (line : string)     (* a line on standard error *)
| Execute (sql : string).    (* a statement handed to duckdb_conn.execute *)

(** A row of the in-memory table [export_logs]. *)
Record LedgerEntry := mkEntry {
  log_id : string;
  log_schema : string;
  log_table_name : string;
  log_full_name : string;
  log_s3_path : string;
  log_status : string;
  log_message : string;
  log_started_at : string;
  log_finished_at : option string
}.

Record State := mkState {
  export_logs : list LedgerEntry;        (* rows, in insertion order *)
  events : list event;                   (* oldest first *)
  local_dirs : list string;              (* directories made by os.makedirs *)
  local_files : list (string * string)   (* files written, newest first *)
}.

Definition initial_state : State := mkState [] [] [] [].

Inductive outcome (A : Type) :=
| Returned (a : A)
| Raised (e : exn).
Arguments Returned {A} a.
Arguments Raised {A} e.

(** Computations of the exporter: they read and change the state and either
    return or raise. *)
Definition M (A : Type) : Type := State -> outcome A * State.

Definition ret {A} (a : A) : M A := fun st => (Returned a, st).

Definition raise {A} (e : exn) : M A := fun st => (Raised e, st).

Definition bind {A B} (m : M A) (k : A -> M B) : M B :=
  fun st =>
    match m st with
    | (Returned a, st') => k a st'
    | (Raised e, st') => (Raised e, st')
    end.

(** A step whose result is known without looking at the state. *)
Definition lift {A} (o : outcome A) : M A := fun st => (o, st).

(** [try: body / except Exception as e: handler(e)] *)
Definition try_except {A} (body : M A) (handler : exn -> M A) : M A :=
  fun st =>
    match body st with
    | (Returned a, st') => (Returned a, st')
    | (Raised e, st') => handler e st'
    end.

Declare Scope exporter_scope.
Delimit Scope exporter_scope with exporter.
Notation "x <- m ;; k" := (bind m (fun x => k))
  (at level 61, m at next level, right associativity) : exporter_scope.
Notation "m ;; k" := (bind m (fun _ => k))
  (at level 61, right associativity) : exporter_scope.
Open Scope exporter_scope.

Definition emit (ev : event) : M unit :=
  fun st =>
    (Returned tt,
     mkState (export_logs st) (events st ++ [ev])%list
             (local_dirs st) (local_files st)).

Definition print (line : string) : M unit := emit (Print line).

(** [duckdb_conn.execute(sql)]: the statement reaches the engine, which
    raises or not as the environment decides. *)
Definition execute (raises : option exn) (sql : string) : M unit :=
  emit (Execute sql) ;;
  match raises with
  | Some e => raise e
  | None => ret tt
  end.

Definition set_export_logs (f : list LedgerEntry -> list LedgerEntry) : M unit :=
  fun st =>
    (Returned tt,
     mkState (f (export_logs st)) (events st) (local_dirs st) (local_files st)).

(** ** The exporter object and its environment *)

(** The fields [__init__] copies from the configuration.  [username] and
    [password] come from [config.get] and may be [None]; [port] is kept as
    the text an f-string renders; [s3_bucket_path] is the configured path
    after [rstrip('/')]. *)
Record Exporter := mkExporter {
  db_type : string;
  server : string;
  database : string;
  port : string;
  auth_type : string;
  username : option string;
  password : option string;
  s3_bucket_path : string
}.

(** How an f-string renders a value that may be [None]. *)
Definition fmt (v : option string) : string :=
  match v with
  | Some s => s
  | None => "None"
  end.

(** What the environment does while one table is exported: the identifier
    [uuid.uuid4()] yields, the two readings of the clock, and whether the
    engine raises on the ledger INSERT, on the COPY and on the ledger
    UPDATE. *)
Record TableWorld := mkTableWorld {
  uuid4 : string;
  utcnow_start : string;
  utcnow_end : string;
  insert_raises : option exn;
  copy_raises : option exn;
  update_raises : option exn
}.

(** [s.replace("'", "''")] *)
Definition escape_quotes (s : string) : string := PyStr.replace "'" "''" s.

(** ** The export ledger *)

Definition _log_export_start (w : TableWorld) (table_info : TableInfo)
  (s3_path : string) : M string :=
  let log_id := uuid4 w in
  let started_at := utcnow_start w in
  let schema_escaped := escape_quotes (schema table_info) in
  let table_escaped := escape_quotes (name table_info) in
  let full_name_escaped := escape_quotes (full_name table_info) in
  let s3_path_escaped := escape_quotes s3_path in
  execute (insert_raises w)
    (PyStr.block
       [(12, "INSERT INTO export_logs (id, schema, table_name, full_name, s3_path, status, message, started_at)");
        (12, "VALUES ('" ++ log_id ++ "', '" ++ schema_escaped ++ "', '"
               ++ table_escaped ++ "', '" ++ full_name_escaped ++ "', '"
               ++ s3_path_escaped ++ "', 'in_progress', '', '"
               ++ started_at ++ "');")] 8) ;;
  set_export_logs (fun rows =>
    (rows ++ [mkEntry log_id (schema table_info) (name table_info)
                (full_name table_info) s3_path "in_progress" EmptyString
                started_at None])%list) ;;
  ret log_id.

(** The effect of [UPDATE export_logs SET ... WHERE id = log_id] on a row. *)
Definition update_row (id status message finished_at : string)
  (row : LedgerEntry) : LedgerEntry :=
  if log_id row =? id
  then mkEntry (log_id row) (log_schema row) (log_table_name row)
         (log_full_name row) (log_s3_path row) status message
         (log_started_at row) (Some finished_at)
  else row.

Definition _log_export_end (w : TableWorld) (id status message : string)
  : M unit :=
  let finished_at := utcnow_end w in
  let message_escaped := escape_quotes message in
  execute (update_raises w)
    (PyStr.block
       [(12, "UPDATE export_logs");
        (12, "SET status = '" ++ status ++ "', message = '" ++ message_escaped
               ++ "', finished_at = '" ++ finished_at ++ "'");
        (12, "WHERE id = '" ++ id ++ "';")] 8) ;;
  set_export_logs (map (update_row id status message finished_at)).

(** [if log_id: k(log_id)]: [None] and the empty string are falsy. *)
Definition if_log_id (id : option string) (k : string -> M unit) : M unit :=
  match id with
  | Some s => if s =? EmptyString then ret tt else k s
  | None => ret tt
  end.

(** ** Scan adapter and per-table export *)

(** The ODBC connection string of the nanodbc branch. *)
Definition odbc_conn (self : Exporter) : string :=
  if db_type self =? "sqlserver" then
    if auth_type self =? "windows" then
      "Driver={ODBC Driver 17 for SQL Server};Server=" ++ server self ++ ","
        ++ port self ++ ";Database=" ++ database self
        ++ ";Trusted_Connection=yes;"
    else
      "Driver={ODBC Driver 17 for SQL Server};Server=" ++ server self ++ ","
        ++ port self ++ ";Database=" ++ database self ++ ";Uid="
        ++ fmt (username self) ++ ";Pwd=" ++ fmt (password self) ++ ";"
  else
    "Driver={Oracle in OraClient19Home1};DBQ=" ++ server self ++ ":"
      ++ port self ++ "/" ++ database self ++ ";Uid=" ++ fmt (username self)
      ++ ";Pwd=" ++ fmt (password self) ++ ";".

(** The query handed to [odbc_query], with its ORDER BY when [sort_order]
    is not empty. *)
Definition table_query (self : Exporter) (schema table sort_order : string)
  : string :=
  let q :=
    if db_type self =? "sqlserver"
    then "SELECT * FROM [" ++ schema ++ "].[" ++ table ++ "]"
    else "SELECT * FROM " ++ PyStr.dquote ++ schema ++ PyStr.dquote ++ "."
           ++ PyStr.dquote ++ table ++ PyStr.dquote in
  if sort_order =? EmptyString then q else q ++ " ORDER BY " ++ sort_order.

(** The scan function of the table, or the [ValueError] of an engine without
    scanner. *)
Definition scan_function (self : Exporter) (schema table sort_order : string)
  : outcome string :=
  if (db_type self =? "sqlserver") || (db_type self =? "oracle") then
    let odbc_conn_escaped := escape_quotes (odbc_conn self) in
    let table_query_escaped :=
      escape_quotes (table_query self schema table sort_order) in
    Returned (PyStr.block
           [(20, "odbc_query(");
            (24, "connection='" ++ odbc_conn_escaped ++ "',");
            (24, "query='" ++ table_query_escaped ++ "'");
            (20, ")")] 16)
  else if db_type self =? "postgresql" then
    let pg_conn :=
      "host=" ++ server self ++ " port=" ++ port self ++ " dbname="
        ++ database self ++ " user=" ++ fmt (username self) ++ " password="
        ++ fmt (password self) in
    let pg_conn_escaped := escape_quotes pg_conn in
    let schema_escaped := escape_quotes schema in
    let table_escaped := escape_quotes table in
    Returned (PyStr.block
           [(20, "postgres_scan(");
            (24, "'" ++ pg_conn_escaped ++ "',");
            (24, "'" ++ schema_escaped ++ "',");
            (24, "'" ++ table_escaped ++ "'");
            (20, ")")] 16)
  else
    Raised (ValueError ("Scanner not available for " ++ db_type self)).

(** The COPY statement of one table. *)
Definition export_query (self : Exporter)
  (scan sort_order table_s3_path : string) : string :=
  if (db_type self =? "postgresql") && negb (sort_order =? EmptyString) then
    PyStr.block
      [(20, "COPY (");
       (24, "SELECT * FROM " ++ scan);
       (24, "ORDER BY " ++ sort_order);
       (20, ") TO '" ++ table_s3_path ++ "'");
       (20, "(FORMAT 'parquet', COMPRESSION 'ZSTD', ROW_GROUP_SIZE 100000);")]
      16
  else
    PyStr.block
      [(20, "COPY (");
       (24, "SELECT * FROM " ++ scan);
       (20, ") TO '" ++ table_s3_path ++ "'");
       (20, "(FORMAT 'parquet', COMPRESSION 'ZSTD', ROW_GROUP_SIZE 100000);")]
      16.

(** The object-storage path of a table's parquet file. *)
Definition table_s3_path (self : Exporter) (schema table : string) : string :=
  s3_bucket_path self ++ "/" ++ schema ++ "/" ++ table ++ "/" ++ table
    ++ ".parquet".

(** [export_table_data].  The ledger entry is opened before the guarded
    block is entered: in the source that inner [try] is the first statement
    of the outer one and cannot raise into it, and [log_id] is read by both
    the success path and the handler. *)
Definition export_table_data (self : Exporter) (w : TableWorld)
  (table_info : TableInfo) : M unit :=
  let schema := schema table_info in
  let table := name table_info in
  let full_name := full_name table_info in
  print (PyStr.nl ++ "Exporting table: " ++ full_name) ;;
  match fst (get_table_sort_order table_info) with
  | Some line => print line
  | None => ret tt
  end ;;
  let sort_order := sort_order table_info in
  let table_s3_path := table_s3_path self schema table in
  print ("Writing to: " ++ table_s3_path) ;;
  id <- try_except
          (i <- _log_export_start w table_info table_s3_path ;; ret (Some i))
          (fun e =>
             print ("Warning: could not create progress log entry: "
                    ++ str_exn e) ;;
             ret None) ;;
  try_except
    (scan <- lift (scan_function self schema table sort_order) ;;
     execute (copy_raises w) (export_query self scan sort_order table_s3_path) ;;
     print (PyStr.check_mark ++ " Table " ++ full_name
            ++ " exported successfully") ;;
     try_except
       (if_log_id id (fun i =>
          _log_export_end w i "success" ("Exported to " ++ table_s3_path)))
       (fun _ => ret tt))
    (fun e =>
       try_except
         (if_log_id id (fun i => _log_export_end w i "failed" (str_exn e)))
         (fun _ => ret tt) ;;
       print (PyStr.ballot_x ++ " Error exporting table " ++ full_name ++ ": "
              ++ str_exn e) ;;
       raise e).

(** ** Metadata artifacts and the run *)

(** A view, procedure or function of the extracted metadata. *)
Record Routine := mkRoutine {
  r_schema : string;
  r_name : string;
  r_definition : string
}.

(** The dictionary [extract_complete_metadata] returns; a key an extractor
    does not produce is an empty list here, as [metadata.get(key, [])]
    makes it. *)
Record Metadata := mkMetadata {
  tables : list TableInfo;
  views : list Routine;
  stored_procedures : list Routine;
  procedures : list Routine;
  functions : list Routine
}.

(** What the environment does during a run. *)
Record RunWorld := mkRunWorld {
  initialize_raises : option exn;          (* initialize_duckdb() *)
  connect_raises : option exn;             (* metadata_extractor.connect() *)
  extracted : outcome Metadata;            (* extract_complete_metadata() *)
  json_dumps : string;                     (* json.dumps(metadata, ...) *)
  now_metadata : string;                   (* the metadata timestamp *)
  s3_copy_raises : string -> option exn;   (* COPY ... TO path, by path *)
  makedirs_raises : string -> option exn;  (* os.makedirs, by directory *)
  open_raises : string -> option exn;      (* open and write, by file *)
  table_world : nat -> TableWorld;         (* by position, from 1 *)
  utcnow_flush : string;                   (* the ledger timestamp *)
  flush_copy_raises : option exn;          (* COPY of export_logs *)
  flush_select_raises : option exn         (* SELECT * FROM export_logs *)
}.

Module PosixPath.

Fixpoint upto_last_sep (p : string) : string :=
  match p with
  | EmptyString => EmptyString
  | String c p' =>
      if PyStr.contains_char "/" p then String c (upto_last_sep p')
      else EmptyString
  end.

Fixpoint all_seps (s : string) : bool :=
  match s with
  | EmptyString => true
  | String c s' => Ascii.eqb c "/" && all_seps s'
  end.

Fixpoint rstrip_sep (s : string) : string :=
  match s with
  | EmptyString => EmptyString
  | String c s' =>
      let r := rstrip_sep s' in
      if Ascii.eqb c "/" && (r =? EmptyString) then EmptyString
      else String c r
  end.

(** [os.path.dirname(p)] *)
Definition dirname (p : string) : string :=
  let head := upto_last_sep p in
  if negb (head =? EmptyString) && negb (all_seps head)
  then rstrip_sep head
  else head.

End PosixPath.

(** [os.makedirs(dir, exist_ok=True)]; the empty name is refused. *)
Definition makedirs (rw : RunWorld) (dir : string) : M unit :=
  if dir =? EmptyString then
    raise (CollaboratorError "[Errno 2] No such file or directory: ''")
  else
    match makedirs_raises rw dir with
    | Some e => raise e
    | None =>
        fun st =>
          (Returned tt,
           mkState (export_logs st) (events st) (dir :: local_dirs st)
                   (local_files st))
    end.

(** [with open(path, 'w', encoding='utf-8') as f: f.write(content)] *)
Definition write_file (rw : RunWorld) (path content : string) : M unit :=
  match open_raises rw path with
  | Some e => raise e
  | None =>
      fun st =>
        (Returned tt,
         mkState (export_logs st) (events st) (local_dirs st)
                 ((path, content) :: local_files st))
  end.

Definition local_path_of (s3_path : string) : string :=
  PyStr.replace "s3://" "local_export/" s3_path.

Definition _save_to_s3 (rw : RunWorld) (s3_path content : string) : M unit :=
  let content_escaped := escape_quotes content in
  let query :=
    PyStr.block
      [(8, "COPY (SELECT '" ++ content_escaped ++ "' AS content)");
       (8, "TO '" ++ s3_path ++ "'");
       (8, "(FORMAT 'csv', HEADER false);")] 8 in
  try_except
    (execute (s3_copy_raises rw s3_path) query)
    (fun e =>
       print ("Warning: Failed to save to S3: " ++ s3_path ++ ". Error: "
              ++ str_exn e) ;;
       let local_path := local_path_of s3_path in
       makedirs rw (PosixPath.dirname local_path) ;;
       write_file rw local_path content ;;
       print ("Saved locally instead: " ++ local_path)).

(** [for x in xs: body(x)] *)
Fixpoint for_each {A} (xs : list A) (body : A -> M unit) : M unit :=
  match xs with
  | [] => ret tt
  | x :: rest => body x ;; for_each rest body
  end.

Definition extract_metadata (self : Exporter) (rw : RunWorld) : M Metadata :=
  print "Extracting database metadata..." ;;
  metadata <- lift (extracted rw) ;;
  let metadata_path := s3_bucket_path self ++ "/metadata" in
  let timestamp := now_metadata rw in
  let metadata_json := json_dumps rw in
  let metadata_file := metadata_path ++ "/metadata_" ++ timestamp ++ ".json" in
  print ("Saving metadata to: " ++ metadata_file) ;;
  _save_to_s3 rw metadata_file metadata_json ;;
  for_each (tables metadata) (fun table =>
    let ddl_file :=
      metadata_path ++ "/tables/" ++ schema table ++ "/" ++ name table
        ++ ".sql" in
    print ("Saving DDL: " ++ ddl_file) ;;
    _save_to_s3 rw ddl_file (ddl table)) ;;
  for_each (views metadata) (fun view =>
    let view_file :=
      metadata_path ++ "/views/" ++ r_schema view ++ "/" ++ r_name view
        ++ ".sql" in
    print ("Saving view: " ++ view_file) ;;
    _save_to_s3 rw view_file (r_definition view)) ;;
  for_each (stored_procedures metadata ++ procedures metadata
            ++ functions metadata)%list (fun proc =>
    let proc_file :=
      metadata_path ++ "/procedures/" ++ r_schema proc ++ "/" ++ r_name proc
        ++ ".sql" in
    print ("Saving procedure/function: " ++ proc_file) ;;
    _save_to_s3 rw proc_file (r_definition proc)) ;;
  print ("Metadata extraction completed. "
         ++ PyStr.of_nat (List.length (tables metadata))
         ++ " tables processed.") ;;
  ret metadata.

(** [connect_to_source]: the extractor is chosen by [db_type], an unknown
    engine is refused, and the chosen extractor connects. *)
Definition connect_to_source (self : Exporter) (rw : RunWorld) : M unit :=
  print ("Connecting to " ++ db_type self ++ " database: " ++ database self
         ++ "@" ++ server self ++ "...") ;;
  (if (db_type self =? "sqlserver") || (db_type self =? "postgresql")
      || (db_type self =? "oracle")
   then ret tt
   else raise (ValueError ("Unsupported database type: " ++ db_type self))) ;;
  match connect_raises rw with
  | Some e => raise e
  | None => ret tt
  end ;;
  print "Connected to source database successfully".

(** One line of the delimited-text rendering of the ledger. *)
Definition csv_row (row : LedgerEntry) : string :=
  let cell := PyStr.replace "," " " in
  PyStr.join ","
    [cell (log_id row); cell (log_schema row); cell (log_table_name row);
     cell (log_full_name row); cell (log_s3_path row); cell (log_status row);
     cell (log_message row); cell (log_started_at row);
     match log_finished_at row with
     | Some t => cell t
     | None => EmptyString
     end] ++ PyStr.nl.

Definition _write_progress_to_s3 (self : Exporter) (rw : RunWorld) : M unit :=
  let timestamp := utcnow_flush rw in
  let s3_logs_path :=
    s3_bucket_path self ++ "/logs/export_log_" ++ timestamp ++ ".parquet" in
  try_except
    (execute (flush_copy_raises rw)
       (PyStr.block
          [(16, "COPY (SELECT * FROM export_logs)");
           (16, "TO '" ++ s3_logs_path ++ "'");
           (16, "(FORMAT 'parquet', COMPRESSION 'ZSTD');")] 12) ;;
     print ("Export progress log written to: " ++ s3_logs_path))
    (fun e =>
       print ("Warning: Failed to write progress log to S3: " ++ str_exn e) ;;
       let local_path := local_path_of s3_logs_path in
       makedirs rw (PosixPath.dirname local_path) ;;
       try_except
         (execute (flush_select_raises rw) "SELECT * FROM export_logs" ;;
          res <- (fun st => (Returned (export_logs st), st)) ;;
          let csv_path := PyStr.replace ".parquet" ".csv" local_path in
          write_file rw csv_path
            ("id,schema,table_name,full_name,s3_path,status,message,started_at,finished_at"
               ++ PyStr.nl ++ String.concat EmptyString (map csv_row res)) ;;
          print ("Progress log saved locally instead: " ++ csv_path))
         (fun e2 =>
            print ("Failed to save progress log locally: " ++ str_exn e2))).

(** The loop of [export_all_tables]: [idx] counts from 1 as [enumerate]
    does, and a table that fails is reported and left behind. *)
Fixpoint export_loop (self : Exporter) (rw : RunWorld) (total idx : nat)
  (tables : list TableInfo) : M unit :=
  match tables with
  | [] => ret tt
  | table :: rest =>
      print (PyStr.nl ++ "[" ++ PyStr.of_nat idx ++ "/" ++ PyStr.of_nat total
             ++ "] Processing " ++ full_name table) ;;
      try_except
        (export_table_data self (table_world rw idx) table)
        (fun e =>
           print ("Failed to export " ++ full_name table ++ ": "
                  ++ str_exn e)) ;;
      export_loop self rw total (S idx) rest
  end.

Definition banner : string := PyStr.times "=" 80.

Definition export_all_tables (self : Exporter) (rw : RunWorld)
  (metadata : Metadata) : M unit :=
  print (PyStr.nl ++ "Starting data export for "
         ++ PyStr.of_nat (List.length (tables metadata)) ++ " tables...") ;;
  let total_tables := List.length (tables metadata) in
  export_loop self rw total_tables 1 (tables metadata) ;;
  try_except
    (_write_progress_to_s3 self rw)
    (fun e => print ("Warning: Failed to write progress log: " ++ str_exn e)) ;;
  print (PyStr.nl ++ banner) ;;
  print "Data export completed!" ;;
  print banner.

(** The four steps of [run], inside its [try]. *)
Definition run_steps (self : Exporter) (rw : RunWorld) : M unit :=
  print banner ;;
  print "DuckDB Database Export Tool" ;;
  print banner ;;
  print ("Source: " ++ db_type self ++ " - " ++ database self ++ "@"
         ++ server self) ;;
  print ("Target: " ++ s3_bucket_path self) ;;
  print (banner ++ PyStr.nl) ;;
  match initialize_raises rw with
  | Some e => raise e
  | None => ret tt
  end ;;
  connect_to_source self rw ;;
  metadata <- extract_metadata self rw ;;
  export_all_tables self rw metadata ;;
  print (PyStr.nl ++ banner) ;;
  print "EXPORT COMPLETED SUCCESSFULLY" ;;
  print banner.

(** [run]: the exit status of the process and the final state.  An exception
    of any step is reported on standard error and ends the process with
    status 1; closing the connections in [finally] changes nothing that is
    observed here. *)
Definition run (self : Exporter) (rw : RunWorld) (st : State) : nat * State :=
  match run_steps self rw st with
  | (Returned _, st') => (0, st')
  | (Raised e, st') =>
      (1, snd (emit (Stderr (PyStr.nl ++ "ERROR: Export failed: " ++ str_exn e))
                 st'))
  end.

(** ** One table's export in closed form *)

(** What the export of a table returns or raises: the scan adapter's error,
    or else the outcome of the COPY. *)
Definition export_result (self : Exporter) (w : TableWorld) (t : TableInfo)
  : outcome unit :=
  match scan_function self (schema t) (name t) (sort_order t) with
  | Raised e => Raised e
  | Returned _ =>
      match copy_raises w with
      | Some e => Raised e
      | None => Returned tt
      end
  end.

(** The COPY statement built for a table, when a scan adapter exists. *)
Definition copy_statement (self : Exporter) (t : TableInfo) : outcome string :=
  match scan_function self (schema t) (name t) (sort_order t) with
  | Raised e => Raised e
  | Returned scan =>
      Returned (export_query self scan (sort_order t)
                  (table_s3_path self (schema t) (name t)))
  end.

(** The row [_log_export_start] inserts for a table. *)
Definition opened_row (self : Exporter) (w : TableWorld) (t : TableInfo)
  : LedgerEntry :=
  mkEntry (uuid4 w) (schema t) (name t) (full_name t)
    (table_s3_path self (schema t) (name t)) "in_progress" EmptyString
    (utcnow_start w) None.

(** The status and message [_log_export_end] is called with. *)
Definition closing_status (self : Exporter) (w : TableWorld) (t : TableInfo)
  : string * string :=
  match export_result self w t with
  | Returned _ =>
      ("success", "Exported to " ++ table_s3_path self (schema t) (name t))
  | Raised e => ("failed", str_exn e)
  end.

(** The ledger after the export of a table. *)
Definition ledger_after (self : Exporter) (w : TableWorld) (t : TableInfo)
  (rows : list LedgerEntry) : list LedgerEntry :=
  match insert_raises w with
  | Some _ => rows
  | None =>
      let rows' := (rows ++ [opened_row self w t])%list in
      if uuid4 w =? EmptyString then rows'
      else
        match update_raises w with
        | Some _ => rows'
        | None =>
            map (update_row (uuid4 w) (fst (closing_status self w t))
                   (snd (closing_status self w t)) (utcnow_end w)) rows'
        end
  end.

(** [runs m r f evs]: on every state, [m] ends with [r], changes the ledger
    by [f], appends the events [evs] and leaves the local files alone. *)
Definition runs {A} (m : M A) (r : outcome A)
  (f : list LedgerEntry -> list LedgerEntry) (evs : list event) : Prop :=
  forall st,
    m st = (r, mkState (f (export_logs st)) (events st ++ evs)%list
                 (local_dirs st) (local_files st)).

(** The events of the export of a table. *)
Definition table_events (self : Exporter) (w : TableWorld) (t : TableInfo)
  : list event :=
  events (snd (export_table_data self w t initial_state)).

(** The same environment with other ledger faults. *)
Definition with_ledger_faults (ins upd : option exn) (w : TableWorld)
  : TableWorld :=
  mkTableWorld (uuid4 w) (utcnow_start w) (utcnow_end w) ins (copy_raises w)
    upd.

(** The events and the ledger of the export loop, table after table. *)
Fixpoint loop_events (self : Exporter) (rw : RunWorld) (total idx : nat)
  (tables : list TableInfo) : list event :=
  match tables with
  | [] => []
  | t :: rest =>
      (Print (PyStr.nl ++ "[" ++ PyStr.of_nat idx ++ "/" ++ PyStr.of_nat total
              ++ "] Processing " ++ full_name t)
       :: table_events self (table_world rw idx) t
       ++ match export_result self (table_world rw idx) t with
          | Returned _ => []
          | Raised e =>
              [Print ("Failed to export " ++ full_name t ++ ": " ++ str_exn e)]
          end
       ++ loop_events self rw total (S idx) rest)%list
  end.

Fixpoint loop_ledger (self : Exporter) (rw : RunWorld) (idx : nat)
  (tables : list TableInfo) (rows : list LedgerEntry) : list LedgerEntry :=
  match tables with
  | [] => rows
  | t :: rest =>
      loop_ledger self rw (S idx) rest
        (ledger_after self (table_world rw idx) t rows)
  end.

(** [quiet m]: [m] leaves the ledger as it is and only adds events. *)
Definition quiet {A} (m : M A) : Prop :=
  forall st,
    export_logs (snd (m st)) = export_logs st
    /\ exists post, events (snd (m st)) = (events st ++ post)%list.

(** [total m]: [m] never raises. *)
Definition total {A} (m : M A) : Prop :=
  forall st, exists a, fst (m st) = Returned a.

(** The steps of [run] that come before the export of the tables. *)
Definition before_export (self : Exporter) (rw : RunWorld) : M Metadata :=
  print banner ;;
  print "DuckDB Database Export Tool" ;;
  print banner ;;
  print ("Source: " ++ db_type self ++ " - " ++ database self ++ "@"
         ++ server self) ;;
  print ("Target: " ++ s3_bucket_path self) ;;
  print (banner ++ PyStr.nl) ;;
  match initialize_raises rw with
  | Some e => raise e
  | None => ret tt
  end ;;
  connect_to_source self rw ;;
  extract_metadata self rw.

(** The same environment with another behaviour during the export of the
    tables and the writing of the ledger. *)
Definition with_export_world (tw : nat -> TableWorld) (now : string)
  (fc fs : option exn) (rw : RunWorld) : RunWorld :=
  mkRunWorld (initialize_raises rw) (connect_raises rw) (extracted rw)
    (json_dumps rw) (now_metadata rw) (s3_copy_raises rw)
    (makedirs_raises rw) (open_raises rw) tw now fc fs.

(** A row and what the ledger may make of it later: the same row, or, from
    'in_progress' only, the same attempt with a terminal status. *)
Definition row_step (r r' : LedgerEntry) : Prop :=
  r' = r
  \/ (log_status r = "in_progress"
      /\ (log_status r' = "success" \/ log_status r' = "failed")
      /\ log_id r' = log_id r
      /\ log_schema r' = log_schema r
      /\ log_table_name r' = log_table_name r
      /\ log_full_name r' = log_full_name r
      /\ log_s3_path r' = log_s3_path r
      /\ log_started_at r' = log_started_at r).

(** The row of a table whose export ended with [status] and [message]. *)
Definition closed_row (self : Exporter) (w : TableWorld) (t : TableInfo)
  (status message : string) : LedgerEntry :=
  mkEntry (uuid4 w) (schema t) (name t) (full_name t)
    (table_s3_path self (schema t) (name t)) status message
    (utcnow_start w) (Some (utcnow_end w)).

(** The identifiers [uuid.uuid4()] yields during [n] iterations of the
    export loop, from position [idx] on. *)
Definition loop_ids (rw : RunWorld) (idx n : nat) : list string :=
  map (fun i => uuid4 (table_world rw i)) (seq idx n).

(** The statuses a row of the ledger may carry. *)
Definition known_status (r : LedgerEntry) : Prop :=
  log_status r = "in_progress" \/ log_status r = "success"
  \/ log_status r = "failed".

Definition settled (r : LedgerEntry) : Prop := log_status r <> "in_progress".

(** ** Reading a rendered sort order back *)

(** The names of a rendered column list: what stands between a pair of
    double quotes is a name, what stands outside is skipped. *)
Fixpoint unquote_scan (inside : bool) (cur : string) (s : string)
  : list string :=
  match s with
  | EmptyString => []
  | String c s' =>
      if Ascii.eqb c PyStr.dquote_char then
        if inside then cur :: unquote_scan false EmptyString s'
        else unquote_scan true EmptyString s'
      else if inside then unquote_scan true (cur ++ String c EmptyString) s'
      else unquote_scan false cur s'
  end.

Definition unquote_list (s : string) : list string :=
  unquote_scan false EmptyString s.

Definition quote_free (col : string) : Prop :=
  PyStr.contains_char PyStr.dquote_char col = false.

(** ** How the engine reads a quoted literal *)

(** A single-quoted SQL literal, read from just after its opening quote: two
    quotes in a row stand for one quote of the value, a lone quote ends the
    literal.  The result is the value and the text after the closing
    quote. *)
Fixpoint read_literal (s : string) : option (string * string) :=
  match s with
  | EmptyString => None
  | String c s' =>
      if Ascii.eqb c "'" then
        match s' with
        | String c' s'' =>
            if Ascii.eqb c' "'" then
              match read_literal s'' with
              | Some (v, rest) => Some (String "'" v, rest)
              | None => None
              end
            else Some (EmptyString, s')
        | EmptyString => Some (EmptyString, EmptyString)
        end
      else
        match read_literal s' with
        | Some (v, rest) => Some (String c v, rest)
        | None => None
        end
  end.

(** [s[n:]] *)
Fixpoint skip (n : nat) (s : string) : string :=
  match n, s with
  | S k, String _ s' => skip k s'
  | _, _ => s
  end.

(** The text after the first occurrence of [marker] in [s]. *)
Fixpoint after (marker s : string) : option string :=
  if PyStr.startswith marker s then Some (skip (String.length marker) s)
  else
    match s with
    | EmptyString => None
    | String _ s' => after marker s'
    end.

(** The value of the first literal that follows [marker], as the engine
    reads it. *)
Definition literal_after (marker s : string) : option string :=
  match after marker s with
  | Some text => option_map fst (read_literal text)
  | None => None
  end.

(** ** The literals of a statement *)

(** The values of the single-quoted literals of a SQL text, in order, as the
    engine reads them: a quote opens a literal, two quotes in a row inside
    it stand for one quote, a lone quote closes it. *)
Fixpoint sql_literals (inside : bool) (cur : string) (s : string)
  : list string :=
  match s with
  | EmptyString => []
  | String c s' =>
      if inside then
        if Ascii.eqb c "'" then
          match s' with
          | String c' s'' =>
              if Ascii.eqb c' "'"
              then sql_literals true (cur ++ "'") s''
              else cur :: sql_literals false EmptyString s'
          | EmptyString => [cur]
          end
        else sql_literals true (cur ++ String c EmptyString) s'
      else if Ascii.eqb c "'" then sql_literals true EmptyString s'
      else sql_literals false EmptyString s'
  end.

Definition literals_of (sql : string) : list string :=
  sql_literals false EmptyString sql.

(** A text without single quote. *)
Definition sq_free (s : string) : Prop := PyStr.contains_char "'" s = false.

(** The statements handed to the engine, oldest first. *)
Fixpoint executed (evs : list event) : list string :=
  match evs with
  | [] => []
  | Execute sql :: rest => sql :: executed rest
  | _ :: rest => executed rest
  end.

(** The connection descriptor of the PostgreSQL scanner. *)
Definition pg_conn (self : Exporter) : string :=
  "host=" ++ server self ++ " port=" ++ port self ++ " dbname="
    ++ database self ++ " user=" ++ fmt (username self) ++ " password="
    ++ fmt (password self).

(** What identifies the attempt a ledger row stands for. *)
Definition row_key (r : LedgerEntry) : string * string * string * string :=
  (log_schema r, log_table_name r, log_full_name r, log_s3_path r).

Definition table_key (self : Exporter) (t : TableInfo)
  : string * string * string * string :=
  (schema t, name t, full_name t, table_s3_path self (schema t) (name t)).

(** ** The ledger flush, the metadata artifacts and the early end of a run *)

(** Where [_write_progress_to_s3] sends the ledger, the local directory and
    file of its fallback, and the text of that file. *)
Definition s3_logs_path (self : Exporter) (rw : RunWorld) : string :=
  s3_bucket_path self ++ "/logs/export_log_" ++ utcnow_flush rw ++ ".parquet".

Definition logs_dir (self : Exporter) (rw : RunWorld) : string :=
  PosixPath.dirname (local_path_of (s3_logs_path self rw)).














(** ** Initialisation of the engine *)

(** The S3 settings [__init__] copies from the configuration:
    [s3_access_key], [s3_secret_key], [s3_session_token] and [aws_profile]
    come from [config.get] and may be [None]; [s3_region] has a default. *)
Record S3Settings := mkS3Settings {
  s3_access_key : option string;
  s3_secret_key : option string;
  s3_session_token : option string;
  s3_region : string;
  aws_profile : option string
}.

(** The truth value of a text that may be [None]. *)
Definition truthy (v : option string) : bool :=
  match v with
  | Some (String _ _) => true
  | _ => false
  end.

(** What the engine does during the initialisation: whether
    [duckdb.connect(':memory:')] raises, and whether a statement does. *)
Record EngineWorld := mkEngineWorld {
  memory_connect_raises : option exn;
  statement_raises : string -> option exn
}.

(** [os.environ[key] = value]: the process environment is not part of
    [State]. *)
Definition set_environ (key value : string) : M unit := ret tt.

Definition progress_table_statement : string :=
  PyStr.block
    [(12, "CREATE TABLE IF NOT EXISTS export_logs (");
     (16, "id VARCHAR,");
     (16, "schema VARCHAR,");
     (16, "table_name VARCHAR,");
     (16, "full_name VARCHAR,");
     (16, "s3_path VARCHAR,");
     (16, "status VARCHAR,");
     (16, "message VARCHAR,");
     (16, "started_at TIMESTAMP,");
     (16, "finished_at TIMESTAMP");
     (12, ");")] 8.

(** [_init_progress_table]: the rows of a ledger that exists stay. *)
Definition _init_progress_table (ew : EngineWorld) : M unit :=
  execute (statement_raises ew progress_table_statement)
    progress_table_statement.

(** The secret made for an AWS profile. *)
Definition credential_chain_secret (s3 : S3Settings) : string :=
  PyStr.block
    [(16, "CREATE SECRET aws_secret (");
     (20, "TYPE S3,");
     (20, "PROVIDER CREDENTIAL_CHAIN,");
     (20, "CHAIN 'config;env',");
     (20, "REGION '" ++ s3_region s3 ++ "'");
     (16, ");")] 12.

(** The parameters of the secret made from explicit credentials, with the
    session token added when there is one. *)
Definition secret_params (s3 : S3Settings) : string :=
  let secret_params :=
    PyStr.block
      [(16, "TYPE S3,");
       (16, "KEY_ID '" ++ fmt (s3_access_key s3) ++ "',");
       (16, "SECRET '" ++ fmt (s3_secret_key s3) ++ "',");
       (16, "REGION '" ++ s3_region s3 ++ "'")] 12 in
  if truthy (s3_session_token s3)
  then secret_params ++ "," ++ PyStr.nl ++ PyStr.times " " 16
         ++ "SESSION_TOKEN '" ++ fmt (s3_session_token s3) ++ "'"
  else secret_params.

Definition explicit_secret (s3 : S3Settings) : string :=
  PyStr.block
    [(16, "CREATE SECRET aws_secret (");
     (20, secret_params s3);
     (16, ");")] 12.

(** [initialize_duckdb]: the extensions, the secret and the ledger table.
    In [run] above its outcome is the oracle [initialize_raises]. *)
Definition initialize_duckdb (self : Exporter) (s3 : S3Settings)
  (ew : EngineWorld) : M unit :=
  let run_sql := fun sql => execute (statement_raises ew sql) sql in
  print "Initializing DuckDB with S3 support..." ;;
  match memory_connect_raises ew with
  | Some e => raise e
  | None => ret tt
  end ;;
  run_sql "INSTALL httpfs;" ;;
  run_sql "LOAD httpfs;" ;;
  (if db_type self =? "sqlserver" then
     print "Installing nanodbc extension for SQL Server..." ;;
     run_sql "INSTALL nanodbc FROM community;" ;;
     run_sql "LOAD nanodbc;"
   else if db_type self =? "postgresql" then
     print "Installing PostgreSQL scanner extension..." ;;
     run_sql "INSTALL postgres;" ;;
     run_sql "LOAD postgres;"
   else if db_type self =? "oracle" then
     print "Installing nanodbc extension for Oracle..." ;;
     run_sql "INSTALL nanodbc FROM community;" ;;
     run_sql "LOAD nanodbc;"
   else ret tt) ;;
  (if truthy (aws_profile s3) then
     print ("Using AWS profile: " ++ fmt (aws_profile s3)) ;;
     set_environ "AWS_PROFILE" (fmt (aws_profile s3)) ;;
     run_sql (credential_chain_secret s3) ;;
     print ("Created AWS secret using credential chain (profile: "
            ++ fmt (aws_profile s3) ++ ")")
   else if truthy (s3_access_key s3) && truthy (s3_secret_key s3) then
     (if truthy (s3_session_token s3)
      then print "Creating AWS secret with temporary credentials (session token)"
      else print "Creating AWS secret with static credentials") ;;
     run_sql (explicit_secret s3)
   else ret tt) ;;
  print "DuckDB initialized successfully" ;;
  _init_progress_table ew.

(** The statements of [initialize_duckdb], in the order in which it hands
    them to the engine. *)
Definition scanner_statements (db : string) : list string :=
  if db =? "sqlserver" then ["INSTALL nanodbc FROM community;"; "LOAD nanodbc;"]
  else if db =? "postgresql" then ["INSTALL postgres;"; "LOAD postgres;"]
  else if db =? "oracle" then ["INSTALL nanodbc FROM community;"; "LOAD nanodbc;"]
  else [].

Definition secret_statements (s3 : S3Settings) : list string :=
  if truthy (aws_profile s3) then [credential_chain_secret s3]
  else if truthy (s3_access_key s3) && truthy (s3_secret_key s3)
       then [explicit_secret s3]
       else [].

Definition initialize_statements (self : Exporter) (s3 : S3Settings)
  : list string :=
  List.app ["INSTALL httpfs;"; "LOAD httpfs;"]
    (List.app (scanner_statements (db_type self))
       (List.app (secret_statements s3) [progress_table_statement])).

(** The statements of a list the engine receives when each is tried in
    turn until one raises, and the exception of that one. *)
Fixpoint attempt (raises : string -> option exn) (qs : list string)
  : list string * option exn :=
  match qs with
  | [] => ([], None)
  | q :: rest =>
      match raises q with
      | Some e => ([q], Some e)
      | None => (q :: fst (attempt raises rest), snd (attempt raises rest))
      end
  end.

(** [attempts raises m qs]: [m] hands the statements [qs] to the engine in
    turn and stops with the exception of the first one that raises; it
    changes nothing else. *)
Definition attempts (raises : string -> option exn) (m : M unit)
  (qs : list string) : Prop :=
  forall st, exists evs,
    m st
    = (match snd (attempt raises qs) with
       | Some e => Raised e
       | None => Returned tt
       end,
       mkState (export_logs st) (events st ++ evs)%list
               (local_dirs st) (local_files st))
    /\ executed evs = fst (attempt raises qs).

(** ** Concrete scenarios *)

Module Scenario.

(** A PostgreSQL source and a SQL Server source exporting to one bucket. *)
Definition pg : Exporter :=
  mkExporter "postgresql" "db.example" "shop" "5432" "password"
    (Some "etl") (Some "secret") "s3://bucket".

Definition mssql : Exporter :=
  mkExporter "sqlserver" "db.example" "shop" "1433" "windows" None None
    "s3://bucket".

(** An engine the exporter does not know. *)
Definition mysql : Exporter :=
  mkExporter "mysql" "db.example" "shop" "3306" "password"
    (Some "etl") (Some "secret") "s3://bucket".

Definition ix_plain : IndexInfo := mkIndex "ix_date" "NONCLUSTERED" false ["created"].
Definition ix_unique : IndexInfo := mkIndex "ux_code" "NONCLUSTERED" true ["code"].
Definition ix_clustered : IndexInfo :=
  mkIndex "cx_region" "CLUSTERED" false ["region"; "id"].

Definition cols : list ColumnInfo := [mkColumn "id"; mkColumn "code"].


Definition t_unique : TableInfo :=
  mkTable "sales" "codes" "sales.codes" "CREATE TABLE codes" cols None
    [ix_plain; ix_unique].

Definition t_first_column : TableInfo :=
  mkTable "sales" "legacy" "sales.legacy" "CREATE TABLE legacy" cols None
    [ix_plain].


(** A table whose primary key lists no column. *)
Definition t_empty_key : TableInfo :=
  mkTable "sales" "notes" "sales.notes" "CREATE TABLE notes" cols
    (Some (mkKey "pk_notes" "CLUSTERED" [])) [ix_clustered; ix_unique].

(** A table with a primary key. *)
Definition t_orders : TableInfo :=
  mkTable "sales" "orders" "sales.orders" "CREATE TABLE orders" cols
    (Some (mkKey "pk_orders" "CLUSTERED" ["order_id"])) [ix_clustered].

(** The environment of a table whose export meets no fault, and the fault
    used below. *)
Definition boom : exn := CollaboratorError "IO Error: connection reset".

Definition w_ok : TableWorld :=
  mkTableWorld "6f1c-01" "2024-05-01 10:00:00" "2024-05-01 10:00:07"
    None None None.

Definition copy_orders : string :=
  match copy_statement pg t_orders with
  | Returned q => q
  | Raised _ => EmptyString
  end.

(** Three tables; the COPY of the second one raises. *)
Definition three_tables : Metadata :=
  mkMetadata [t_orders; t_unique; t_first_column] [] [] [] [].

Definition second_copy_fails (position : nat) : TableWorld :=
  match position with
  | 1 => mkTableWorld "6f1c-01" "2024-05-01 10:00:00" "2024-05-01 10:00:07"
           None None None
  | 2 => mkTableWorld "6f1c-02" "2024-05-01 10:00:08" "2024-05-01 10:00:09"
           None (Some boom) None
  | _ => mkTableWorld "6f1c-03" "2024-05-01 10:00:10" "2024-05-01 10:00:15"
           None None None
  end.

(** The same, and the ledger INSERT of the second table raises too. *)
Definition second_unlogged (position : nat) : TableWorld :=
  match position with
  | 2 => mkTableWorld "6f1c-02" "2024-05-01 10:00:08" "2024-05-01 10:00:09"
           (Some boom) (Some boom) None
  | _ => second_copy_fails position
  end.

(** No COPY fails, but the ledger UPDATE of the second table raises. *)
Definition second_update_fails (position : nat) : TableWorld :=
  match position with
  | 2 => mkTableWorld "6f1c-02" "2024-05-01 10:00:08" "2024-05-01 10:00:09"
           None None (Some boom)
  | _ => second_copy_fails position
  end.

Definition healthy_run (tw : nat -> TableWorld) : RunWorld :=
  mkRunWorld None None (Returned three_tables) "{}" "20240501_095900"
    (fun _ => None) (fun _ => None) (fun _ => None) tw "20240501_100100"
    None None.

(** Object storage refuses every write. *)
Definition denied : exn := CollaboratorError "HTTP 403 (Forbidden)".

(** ... and the local fallback works. *)
Definition offline_run : RunWorld :=
  mkRunWorld None None (Returned three_tables) "{}" "20240501_095900"
    (fun _ => Some denied) (fun _ => None) (fun _ => None)
    second_copy_fails "20240501_100100" None None.

(** ... and the local directory cannot be written either. *)
Definition read_only : exn := CollaboratorError "[Errno 13] Permission denied".

Definition unwritable_run : RunWorld :=
  mkRunWorld None None (Returned three_tables) "{}" "20240501_095900"
    (fun _ => Some denied) (fun _ => None) (fun _ => Some read_only)
    second_copy_fails "20240501_100100" None None.

(** A table whose name holds a quote, and the COPY statement built for
    it. *)
Definition t_quote : TableInfo :=
  mkTable "dbo" "O'Brien" "dbo.O'Brien" "CREATE TABLE t" [mkColumn "id"]
    None [].

Definition copy_quote : string :=
  match copy_statement pg t_quote with
  | Returned q => q
  | Raised _ => EmptyString
  end.

(** The ledger INSERT issued for the same table. *)
Definition insert_quote : string :=
  match events (snd (_log_export_start w_ok t_quote
                       (table_s3_path pg "dbo" "O'Brien") initial_state)) with
  | Execute sql :: _ => sql
  | _ => EmptyString
  end.

(** Object storage refuses the ledger file and the local disk takes it. *)
Definition ledger_offline_run : RunWorld :=
  mkRunWorld None None (Returned three_tables) "{}" "20240501_095900"
    (fun _ => None) (fun _ => None) (fun _ => None)
    second_copy_fails "20240501_100100" (Some denied) None.

(** ... and the local directory cannot be made. *)
Definition ledger_unwritable_run : RunWorld :=
  mkRunWorld None None (Returned three_tables) "{}" "20240501_095900"
    (fun _ => None) (fun _ => Some read_only) (fun _ => None)
    second_copy_fails "20240501_100100" (Some denied) None.







(** Credentials: a profile together with keys, temporary keys, and an access
    key without its secret. *)
Definition with_profile : S3Settings :=
  mkS3Settings (Some "AKIA1") (Some "s3cr3t") None "eu-west-1" (Some "etl").

Definition temporary_keys : S3Settings :=
  mkS3Settings (Some "ASIA1") (Some "s3cr3t") (Some "tok") "eu-west-1" None.

Definition half_keys : S3Settings :=
  mkS3Settings (Some "AKIA1") None (Some "tok") "eu-west-1" None.

(** An engine that cannot load the PostgreSQL scanner. *)
Definition no_scanner : EngineWorld :=
  mkEngineWorld None
    (fun q => if q =? "LOAD postgres;" then Some boom else None).

End Scenario.

(** * Properties *)

(** ** Facts about strings *)

Module StringFacts.

Lemma app_assoc (a b c : string) : (a ++ b) ++ c = a ++ (b ++ c).
Proof.
  induction a as [|x a IH]; simpl; [reflexivity | now rewrite IH].
Qed.

Lemma app_empty_r (a : string) : a ++ EmptyString = a.
Proof.
  induction a as [|x a IH]; simpl; [reflexivity | now rewrite IH].
Qed.

Lemma length_app (a b : string) :
  String.length (a ++ b) = String.length a + String.length b.
Proof.
  induction a as [|x a IH]; simpl; [reflexivity | now rewrite IH].
Qed.

Lemma app_inv_head (a x y : string) : a ++ x = a ++ y -> x = y.
Proof.
  induction a as [|c a IH]; simpl; intros H; [exact H|].
  injection H as H. now apply IH.
Qed.

Lemma app_inv_tail (a : string) : forall x y, x ++ a = y ++ a -> x = y.
Proof.
  induction x as [|c x IH]; intros [|d y] H; simpl in H.
  - reflexivity.
  - apply (f_equal String.length) in H. simpl in H.
    rewrite length_app in H. lia.
  - apply (f_equal String.length) in H. simpl in H.
    rewrite length_app in H. lia.
  - injection H as Hc H. subst d. f_equal. now apply IH.
Qed.

Lemma contains_char_app (c : ascii) (a b : string) :
  PyStr.contains_char c (a ++ b)
  = PyStr.contains_char c a || PyStr.contains_char c b.
Proof.
  induction a as [|x a IH]; simpl; [reflexivity|].
  destruct (Ascii.eqb x c); [reflexivity | exact IH].
Qed.

(** A string is cut in one way only at its last occurrence of a
    character. *)
Lemma last_cut (c : ascii) (t1 t2 : string) :
  PyStr.contains_char c t1 = false ->
  PyStr.contains_char c t2 = false ->
  forall a b, a ++ String c t1 = b ++ String c t2 -> a = b /\ t1 = t2.
Proof.
  intros H1 H2.
  induction a as [|x a IH]; intros [|y b] H; simpl in H.
  - injection H as H. now split.
  - injection H as Hc H. subst t1.
    rewrite contains_char_app in H1. simpl in H1.
    rewrite Ascii.eqb_refl in H1. rewrite orb_true_r in H1. discriminate.
  - injection H as Hc H. subst t2.
    rewrite contains_char_app in H2. simpl in H2.
    rewrite Ascii.eqb_refl in H2. rewrite orb_true_r in H2. discriminate.
  - injection H as Hc H. subst y.
    destruct (IH b H) as [-> ->]. now split.
Qed.

End StringFacts.

(** ** Sort-order selection *)



(** The names of a rendered list of quote-free columns are read back as
    they were, in the same order. *)
Lemma unquote_scan_name (col : string) :
  quote_free col ->
  forall cur rest,
    unquote_scan true cur (col ++ String PyStr.dquote_char rest)
    = (cur ++ col) :: unquote_scan false EmptyString rest.
Proof.
  unfold quote_free.
  induction col as [|c col IH]; intros H cur rest; cbn [append unquote_scan].
  - rewrite Ascii.eqb_refl. now rewrite StringFacts.app_empty_r.
  - cbn [PyStr.contains_char] in H.
    destruct (Ascii.eqb c PyStr.dquote_char); [discriminate|].
    rewrite IH by exact H. rewrite StringFacts.app_assoc. reflexivity.
Qed.

Lemma unquote_scan_quoted (col rest : string) :
  quote_free col ->
  unquote_scan false EmptyString (quote_col col ++ rest)
  = col :: unquote_scan false EmptyString rest.
Proof.
  intros H. unfold quote_col, PyStr.dquote.
  cbn [append]. rewrite StringFacts.app_assoc. cbn [append unquote_scan].
  rewrite Ascii.eqb_refl. now rewrite unquote_scan_name.
Qed.

Lemma unquote_quoted_list (cols : list string) :
  Forall quote_free cols -> unquote_list (quoted_list cols) = cols.
Proof.
  unfold unquote_list, quoted_list, PyStr.join.
  induction 1 as [|col cols Hcol Hcols IH]; [reflexivity|].
  destruct cols as [|col' cols'].
  - cbn [map String.concat].
    rewrite <- (StringFacts.app_empty_r (quote_col col)).
    now rewrite unquote_scan_quoted.
  - change (String.concat ", " (map quote_col (col :: col' :: cols')))
      with (quote_col col
            ++ ", " ++ String.concat ", " (map quote_col (col' :: cols'))).
    rewrite unquote_scan_quoted by exact Hcol.
    change (unquote_scan false EmptyString
              (", " ++ String.concat ", " (map quote_col (col' :: cols'))))
      with (unquote_scan false EmptyString
              (String.concat ", " (map quote_col (col' :: cols')))).
    now rewrite IH.
Qed.

(** C2. A table with a primary key is sorted by the primary key's columns,
    each quoted, in the order the key lists them, whatever indexes and
    columns the table has; the line printed names the primary key rule; and
    the names read back from the result are exactly the key's columns, in
    their order. *)
Theorem primary_key_sort_order (t : TableInfo) (pk : KeyInfo) :
  primary_key t = Some pk ->
  get_table_sort_order t
  = (Some ("Using primary key for sort order: "
           ++ PyStr.join ", " (key_columns pk)),
     PyStr.join ", " (map quote_col (key_columns pk)))
  /\ (Forall quote_free (key_columns pk) ->
      unquote_list (sort_order t) = key_columns pk).
Proof.
  intros Hpk. unfold sort_order, get_table_sort_order. rewrite Hpk.
  split; [reflexivity|].
  intros Hfree. cbn [snd]. now apply unquote_quoted_list.
Qed.

Lemma primary_key_sort_order_witness :
  sort_order Scenario.t_orders = quote_col "order_id"
  /\ unquote_list (sort_order Scenario.t_orders) = ["order_id"].
Proof.
  destruct (primary_key_sort_order Scenario.t_orders
              (mkKey "pk_orders" "CLUSTERED" ["order_id"]) eq_refl)
    as [H1 H2].
  split.
  - unfold sort_order. rewrite H1. reflexivity.
  - apply H2. repeat constructor.
Defined.

(** C9. A primary key that is present but lists no column yields the empty
    ordering at once: the primary key rule is the one that fires, and
    neither the indexes nor the columns of the table are looked at. *)
Theorem empty_primary_key_sort_order (t : TableInfo) (pk : KeyInfo) :
  primary_key t = Some pk ->
  key_columns pk = [] ->
  get_table_sort_order t
  = (Some "Using primary key for sort order: ", EmptyString)
  /\ forall cs idxs,
       get_table_sort_order
         (mkTable (schema t) (name t) (full_name t) (ddl t) cs
            (primary_key t) idxs)
       = get_table_sort_order t.
Proof.
  intros Hpk Hcols. unfold get_table_sort_order. cbn [primary_key].
  rewrite Hpk, Hcols. split; [reflexivity|]. intros cs idxs. reflexivity.
Qed.

Lemma empty_primary_key_sort_order_witness :
  get_table_sort_order Scenario.t_empty_key
  = (Some "Using primary key for sort order: ", EmptyString)
  /\ get_table_sort_order
       (mkTable "sales" "notes" "sales.notes" "CREATE TABLE notes" [] 
          (Some (mkKey "pk_notes" "CLUSTERED" [])) [])
     = get_table_sort_order Scenario.t_empty_key.
Proof.
  destruct (empty_primary_key_sort_order Scenario.t_empty_key
              (mkKey "pk_notes" "CLUSTERED" []) eq_refl eq_refl)
    as [H1 H2].
  split; [exact H1 | exact (H2 [] [])].
Defined.



(** ** Destination paths *)

(** C4, as stated, fails: a separator inside the names lets two different
    (schema, table) pairs meet on one path. *)
Lemma table_s3_path_collision :
  ("a/x/x", "x") <> ("a", "x/x")
  /\ table_s3_path Scenario.mssql "a/x/x" "x"
     = table_s3_path Scenario.mssql "a" "x/x".
Proof.
  split; [discriminate | reflexivity].
Qed.

(** C4, amended. Among pairs whose table names hold no '/', two different
    (schema, table) pairs never get the same object-storage path. *)
Theorem table_s3_path_injective (self : Exporter) (s1 t1 s2 t2 : string) :
  PyStr.contains_char "/" t1 = false ->
  PyStr.contains_char "/" t2 = false ->
  (s1, t1) <> (s2, t2) ->
  table_s3_path self s1 t1 <> table_s3_path self s2 t2.
Proof.
  intros H1 H2 Hne Heq. apply Hne. unfold table_s3_path in Heq.
  apply StringFacts.app_inv_head in Heq. simpl in Heq.
  injection Heq as Heq.
  change (s1 ++ String "/" (t1 ++ String "/" (t1 ++ ".parquet")))
    with (s1 ++ (String "/" t1 ++ String "/" (t1 ++ ".parquet"))) in Heq.
  change (s2 ++ String "/" (t2 ++ String "/" (t2 ++ ".parquet")))
    with (s2 ++ (String "/" t2 ++ String "/" (t2 ++ ".parquet"))) in Heq.
  rewrite <- !StringFacts.app_assoc in Heq.
  apply StringFacts.last_cut in Heq.
  - destruct Heq as [Heq _].
    apply StringFacts.last_cut in Heq; [|assumption|assumption].
    destruct Heq as [-> ->]. reflexivity.
  - rewrite StringFacts.contains_char_app, H1. reflexivity.
  - rewrite StringFacts.contains_char_app, H2. reflexivity.
Qed.

Lemma table_s3_path_injective_witness :
  table_s3_path Scenario.pg "sales" "orders"
  <> table_s3_path Scenario.pg "sales" "order".
Proof.
  apply (table_s3_path_injective Scenario.pg "sales" "orders" "sales" "order").
  - reflexivity.
  - reflexivity.
  - discriminate.
Defined.

(** ** Unsupported engines *)

(** C8. For an engine other than sqlserver, postgresql and oracle, connecting
    to the source raises a [ValueError] before any extractor connects, the
    scan adapter raises a [ValueError] instead of yielding a scan function,
    and so does the export of any table. *)
Theorem unsupported_engine_rejected (self : Exporter) :
  db_type self <> "sqlserver" ->
  db_type self <> "postgresql" ->
  db_type self <> "oracle" ->
  (forall rw st,
     fst (connect_to_source self rw st)
     = Raised (ValueError ("Unsupported database type: " ++ db_type self)))
  /\ (forall sch tbl so,
        scan_function self sch tbl so
        = Raised (ValueError ("Scanner not available for " ++ db_type self)))
  /\ (forall w t st,
        fst (export_table_data self w t st)
        = Raised (ValueError ("Scanner not available for " ++ db_type self))).
Proof.
  intros Hs Hp Ho.
  apply String.eqb_neq in Hs, Hp, Ho.
  split; [|split].
  - intros rw st. unfold connect_to_source, bind, print, emit.
    rewrite Hs, Hp, Ho. reflexivity.
  - intros sch tbl so. unfold scan_function.
    rewrite Hs, Hp, Ho. reflexivity.
  - intros w t st.
    unfold export_table_data, scan_function, bind, try_except, print, emit, lift,
      _log_export_start, _log_export_end, if_log_id, execute, set_export_logs,
      ret, raise.
    rewrite Hs, Hp, Ho. simpl.
    destruct (fst (get_table_sort_order t)); simpl;
      destruct (insert_raises w); simpl;
      try destruct (uuid4 w =? EmptyString); simpl;
      try destruct (update_raises w); reflexivity.
Qed.

Lemma unsupported_engine_rejected_witness :
  fst (connect_to_source Scenario.mysql
         (Scenario.healthy_run Scenario.second_copy_fails) initial_state)
  = Raised (ValueError "Unsupported database type: mysql")
  /\ scan_function Scenario.mysql "sales" "orders" EmptyString
     = Raised (ValueError "Scanner not available for mysql")
  /\ fst (export_table_data Scenario.mysql Scenario.w_ok Scenario.t_orders
            initial_state)
     = Raised (ValueError "Scanner not available for mysql").
Proof.
  destruct (unsupported_engine_rejected Scenario.mysql) as [H1 [H2 H3]];
    try discriminate.
  split; [apply H1 | split; [apply H2 | apply H3]].
Defined.

(** ** Computations that leave the local files alone *)

Section Runs.
Context {A B : Type}.

Lemma runs_ret (a : A) : runs (ret a) (Returned a) (fun l => l) [].
Proof. intros [l e d fl]. unfold ret. cbn. now rewrite List.app_nil_r. Qed.

Lemma runs_raise (x : exn) : runs (@raise A x) (Raised x) (fun l => l) [].
Proof. intros [l e d fl]. unfold raise. cbn. now rewrite List.app_nil_r. Qed.

Lemma runs_lift (o : outcome A) : runs (lift o) o (fun l => l) [].
Proof. intros [l e d fl]. unfold lift. cbn. now rewrite List.app_nil_r. Qed.

Lemma runs_bind (m : M A) (k : A -> M B) a f e r g e' :
  runs m (Returned a) f e -> runs (k a) r g e' ->
  runs (bind m k) r (fun l => g (f l)) (e ++ e')%list.
Proof.
  intros Hm Hk st. unfold bind. rewrite Hm, Hk. cbn.
  now rewrite List.app_assoc.
Qed.

Lemma runs_bind_raise (m : M A) (k : A -> M B) x f e :
  runs m (Raised x) f e -> runs (bind m k) (Raised x) f e.
Proof. intros Hm st. unfold bind. now rewrite Hm. Qed.

Lemma runs_try_ok (m : M A) (h : exn -> M A) a f e :
  runs m (Returned a) f e -> runs (try_except m h) (Returned a) f e.
Proof. intros Hm st. unfold try_except. now rewrite Hm. Qed.

Lemma runs_try_raise (m : M A) (h : exn -> M A) x f e r g e' :
  runs m (Raised x) f e -> runs (h x) r g e' ->
  runs (try_except m h) r (fun l => g (f l)) (e ++ e')%list.
Proof.
  intros Hm Hh st. unfold try_except. rewrite Hm, Hh. cbn.
  now rewrite List.app_assoc.
Qed.

Lemma runs_ext (m : M A) r f g e :
  (forall l, f l = g l) -> runs m r f e -> runs m r g e.
Proof. intros E Hm st. rewrite Hm, E. reflexivity. Qed.

(** What a computation that [runs] does on any state is read off what it
    does on the initial one. *)
Lemma runs_from_initial (m : M A) r f e (st : State) :
  runs m r f e ->
  m st = (fst (m initial_state),
          mkState (f (export_logs st))
                  (events st ++ events (snd (m initial_state)))%list
                  (local_dirs st) (local_files st)).
Proof.
  intros Hm. rewrite (Hm initial_state), (Hm st). reflexivity.
Qed.

End Runs.

Lemma runs_emit (ev : event) : runs (emit ev) (Returned tt) (fun l => l) [ev].
Proof. intros st. reflexivity. Qed.

Lemma runs_print (line : string) :
  runs (print line) (Returned tt) (fun l => l) [Print line].
Proof. apply runs_emit. Qed.

Lemma runs_set (f : list LedgerEntry -> list LedgerEntry) :
  runs (set_export_logs f) (Returned tt) f [].
Proof.
  intros [l e d fl]. unfold set_export_logs. cbn. now rewrite List.app_nil_r.
Qed.

Lemma runs_execute_ok (sql : string) :
  runs (execute None sql) (Returned tt) (fun l => l) [Execute sql].
Proof. intros [l e d fl]. reflexivity. Qed.

Lemma runs_execute_raise (x : exn) (sql : string) :
  runs (execute (Some x) sql) (Raised x) (fun l => l) [Execute sql].
Proof. intros [l e d fl]. reflexivity. Qed.

(** Follows a computation step by step once the environment's answers are
    known. *)
Ltac runs_solve :=
  cbv beta iota zeta;
  lazymatch goal with
  | |- runs (ret _) _ _ _ => apply runs_ret
  | |- runs (raise _) _ _ _ => apply runs_raise
  | |- runs (lift _) _ _ _ => apply runs_lift
  | |- runs (print _) _ _ _ => apply runs_print
  | |- runs (emit _) _ _ _ => apply runs_emit
  | |- runs (set_export_logs _) _ _ _ => apply runs_set
  | |- runs (execute None _) _ _ _ => apply runs_execute_ok
  | |- runs (execute (Some _) _) _ _ _ => apply runs_execute_raise
  | |- runs (if ?c then _ else _) _ _ _ =>
      match goal with H : c = _ |- _ => rewrite H end; runs_solve
  | |- runs (bind _ _) _ _ _ =>
      first [ eapply runs_bind; [solve [runs_solve] | runs_solve]
            | eapply runs_bind_raise; runs_solve ]
  | |- runs (try_except _ _) _ _ _ =>
      first [ eapply runs_try_ok; solve [runs_solve]
            | eapply runs_try_raise; [solve [runs_solve] | runs_solve] ]
  end.

(** ** One table's export *)

(** Finds an event in a list of appended events. *)
Ltac in_events :=
  match goal with
  | |- In ?x (?x :: _) => left; reflexivity
  | |- In _ (_ :: _) => right; in_events
  | |- In _ (_ ++ _)%list =>
      apply in_or_app; first [left; in_events | right; in_events]
  end.

Lemma export_table_data_runs (self : Exporter) (w : TableWorld)
  (t : TableInfo) :
  exists evs,
    runs (export_table_data self w t) (export_result self w t)
         (ledger_after self w t) evs
    /\ In (Print (PyStr.nl ++ "Exporting table: " ++ full_name t)) evs
    /\ (forall q, copy_statement self t = Returned q -> In (Execute q) evs).
Proof.
  unfold ledger_after, closing_status, export_result, opened_row,
    copy_statement.
  unfold export_table_data, _log_export_start, _log_export_end, if_log_id.
  destruct (scan_function self (schema t) (name t) (sort_order t)) as [scan|e0];
    destruct (fst (get_table_sort_order t)) as [line|];
    destruct (insert_raises w) as [e1|];
    destruct (copy_raises w) as [e2|];
    destruct (update_raises w) as [e3|];
    destruct (uuid4 w =? EmptyString) eqn:Hid;
    eexists;
    (split; [eapply runs_ext; [|runs_solve]; reflexivity|]);
    (split; [in_events|]);
    intros q Hq; try discriminate Hq;
    injection Hq as <-; in_events.
Qed.

(** The export of a table, on any state: its outcome and its events do not
    depend on the state, and the ledger changes as [ledger_after] says. *)
Lemma export_table_data_closed_form (self : Exporter) (w : TableWorld)
  (t : TableInfo) (st : State) :
  export_table_data self w t st
  = (export_result self w t,
     mkState (ledger_after self w t (export_logs st))
             (events st ++ table_events self w t)%list
             (local_dirs st) (local_files st)).
Proof.
  destruct (export_table_data_runs self w t) as [evs [H _]].
  unfold table_events. rewrite (H initial_state), (H st). reflexivity.
Qed.

Lemma table_events_facts (self : Exporter) (w : TableWorld) (t : TableInfo) :
  In (Print (PyStr.nl ++ "Exporting table: " ++ full_name t))
     (table_events self w t)
  /\ (forall q,
        copy_statement self t = Returned q ->
        In (Execute q) (table_events self w t)).
Proof.
  destruct (export_table_data_runs self w t) as [evs [H [H1 H2]]].
  unfold table_events. rewrite (H initial_state). cbn [snd events app].
  split; assumption.
Qed.

(** ** The export loop *)

Lemma export_loop_closed_form (self : Exporter) (rw : RunWorld) (total : nat)
  (tables : list TableInfo) :
  forall idx st,
    export_loop self rw total idx tables st
    = (Returned tt,
       mkState (loop_ledger self rw idx tables (export_logs st))
               (events st ++ loop_events self rw total idx tables)%list
               (local_dirs st) (local_files st)).
Proof.
  induction tables as [|t rest IH]; intros idx st.
  - destruct st as [l e d fl]. cbn. now rewrite List.app_nil_r.
  - cbn [export_loop loop_ledger loop_events].
    unfold bind at 1. unfold print at 1, emit at 1.
    unfold bind at 1. unfold try_except at 1.
    rewrite export_table_data_closed_form.
    cbn [export_logs events local_dirs local_files].
    destruct (export_result self (table_world rw idx) t) as [[]|e].
    + rewrite IH. cbn [export_logs events local_dirs local_files app].
      rewrite <- !List.app_assoc. reflexivity.
    + unfold print, emit. rewrite IH.
      cbn [export_logs events local_dirs local_files app].
      rewrite <- !List.app_assoc. reflexivity.
Qed.

(** ** Computations that leave the ledger alone, and computations that
    never raise *)

Section Quiet.
Context {A B : Type}.

Lemma quiet_ret (a : A) : quiet (ret a).
Proof. intros st. split; [reflexivity|]. exists []. cbn. now rewrite List.app_nil_r. Qed.

Lemma quiet_raise (x : exn) : quiet (@raise A x).
Proof. intros st. split; [reflexivity|]. exists []. cbn. now rewrite List.app_nil_r. Qed.

Lemma quiet_bind (m : M A) (k : A -> M B) :
  quiet m -> (forall a, quiet (k a)) -> quiet (bind m k).
Proof.
  intros Hm Hk st. unfold bind.
  destruct (Hm st) as [Hl [p Hp]].
  destruct (m st) as [[a|x] st']; cbn [snd] in *.
  - destruct (Hk a st') as [Hl' [p' Hp']]. split.
    + now rewrite Hl'.
    + exists (p ++ p')%list. now rewrite Hp', Hp, List.app_assoc.
  - split; [assumption|]. now exists p.
Qed.

Lemma quiet_try (m : M A) (h : exn -> M A) :
  quiet m -> (forall x, quiet (h x)) -> quiet (try_except m h).
Proof.
  intros Hm Hh st. unfold try_except.
  destruct (Hm st) as [Hl [p Hp]].
  destruct (m st) as [[a|x] st']; cbn [snd] in *.
  - split; [assumption|]. now exists p.
  - destruct (Hh x st') as [Hl' [p' Hp']]. split.
    + now rewrite Hl'.
    + exists (p ++ p')%list. now rewrite Hp', Hp, List.app_assoc.
Qed.

Lemma total_ret (a : A) : total (ret a).
Proof. intros st. now exists a. Qed.

Lemma total_bind (m : M A) (k : A -> M B) :
  total m -> (forall a, total (k a)) -> total (bind m k).
Proof.
  intros Hm Hk st. unfold bind.
  destruct (Hm st) as [a Ha].
  destruct (m st) as [[a'|x] st']; cbn [fst] in Ha; [|discriminate].
  apply Hk.
Qed.

Lemma total_try (m : M A) (h : exn -> M A) :
  (forall x, total (h x)) -> total (try_except m h).
Proof.
  intros Hh st. unfold try_except.
  destruct (m st) as [[a|x] st']; [now exists a | apply Hh].
Qed.

End Quiet.

Lemma quiet_emit (ev : event) : quiet (emit ev).
Proof. intros st. split; [reflexivity|]. now exists [ev]. Qed.

Lemma quiet_print (line : string) : quiet (print line).
Proof. apply quiet_emit. Qed.

Lemma total_print (line : string) : total (print line).
Proof. intros st. now exists tt. Qed.

Lemma quiet_execute (raises : option exn) (sql : string) :
  quiet (execute raises sql).
Proof.
  unfold execute. apply quiet_bind; [apply quiet_emit|].
  intros _. destruct raises; [apply quiet_raise | apply quiet_ret].
Qed.

Lemma quiet_makedirs (rw : RunWorld) (dir : string) : quiet (makedirs rw dir).
Proof.
  unfold makedirs. destruct (dir =? EmptyString); [apply quiet_raise|].
  destruct (makedirs_raises rw dir); [apply quiet_raise|].
  intros st. split; [reflexivity|]. exists []. cbn. now rewrite List.app_nil_r.
Qed.

Lemma quiet_write_file (rw : RunWorld) (path content : string) :
  quiet (write_file rw path content).
Proof.
  unfold write_file. destruct (open_raises rw path); [apply quiet_raise|].
  intros st. split; [reflexivity|]. exists []. cbn. now rewrite List.app_nil_r.
Qed.

Lemma quiet_read_logs : quiet (fun st => (Returned (export_logs st), st)).
Proof.
  intros st. split; [reflexivity|]. exists []. cbn. now rewrite List.app_nil_r.
Qed.

Ltac quiet_solve :=
  repeat first
    [ apply quiet_print | apply quiet_emit | apply quiet_execute
    | apply quiet_makedirs | apply quiet_write_file | apply quiet_read_logs
    | apply quiet_ret | apply quiet_raise
    | apply quiet_bind | apply quiet_try | intro ].

Lemma quiet_write_progress (self : Exporter) (rw : RunWorld) :
  quiet (_write_progress_to_s3 self rw).
Proof. unfold _write_progress_to_s3. quiet_solve. Qed.

(** ** The export of all tables *)

Lemma bind_print {A} (line : string) (k : unit -> M A) (st : State) :
  bind (print line) k st
  = k tt (mkState (export_logs st) (events st ++ [Print line])%list
                  (local_dirs st) (local_files st)).
Proof. reflexivity. Qed.

Lemma bind_returned {A B} (m : M A) (k : A -> M B) (a : A) (st st' : State) :
  m st = (Returned a, st') -> bind m k st = k a st'.
Proof. intros H. unfold bind. now rewrite H. Qed.


(** After the loop the ledger is written and three lines are printed; none
    of this raises or touches the ledger. *)
Lemma after_loop_quiet_total (self : Exporter) (rw : RunWorld) :
  let rest :=
    try_except (_write_progress_to_s3 self rw)
      (fun e => print ("Warning: Failed to write progress log: " ++ str_exn e)) ;;
    print (PyStr.nl ++ banner) ;;
    print "Data export completed!" ;;
    print banner in
  quiet rest /\ total rest.
Proof.
  split.
  - apply quiet_bind; [apply quiet_try; [apply quiet_write_progress|]|];
      quiet_solve.
  - apply total_bind; [apply total_try; intros; apply total_print|].
    intros _. apply total_bind; [apply total_print|].
    intros _. apply total_bind; [apply total_print|].
    intros _. apply total_print.
Qed.

Lemma export_all_tables_closed_form (self : Exporter) (rw : RunWorld)
  (md : Metadata) (st : State) :
  fst (export_all_tables self rw md st) = Returned tt
  /\ export_logs (snd (export_all_tables self rw md st))
     = loop_ledger self rw 1 (tables md) (export_logs st)
  /\ exists post,
       events (snd (export_all_tables self rw md st))
       = (events st
          ++ [Print (PyStr.nl ++ "Starting data export for "
                     ++ PyStr.of_nat (List.length (tables md)) ++ " tables...")]
          ++ loop_events self rw (List.length (tables md)) 1 (tables md)
          ++ post)%list.
Proof.
  unfold export_all_tables. rewrite bind_print.
  erewrite bind_returned by apply export_loop_closed_form.
  cbn [export_logs events local_dirs local_files].
  destruct (after_loop_quiet_total self rw) as [Hq Ht].
  cbv zeta in Hq, Ht.
  match goal with |- context [bind ?m ?k ?s] =>
    destruct (Hq s) as [Hl [post Hp]]; destruct (Ht s) as [[] Ha] end.
  split; [exact Ha|]. split.
  - rewrite Hl. reflexivity.
  - exists post. rewrite Hp. cbn [events].
    rewrite <- !List.app_assoc. reflexivity.
Qed.

(** ** The ledger *)

Lemma update_row_other (id status message finished_at : string)
  (r : LedgerEntry) :
  log_id r <> id -> update_row id status message finished_at r = r.
Proof.
  intros H. unfold update_row. apply String.eqb_neq in H. now rewrite H.
Qed.

Lemma map_update_fresh (id status message finished_at : string)
  (l : list LedgerEntry) :
  ~ In id (map log_id l) ->
  map (update_row id status message finished_at) l = l.
Proof.
  induction l as [|r l IH]; intros H; cbn [map]; [reflexivity|].
  rewrite update_row_other, IH; [reflexivity| |].
  - intros Hin. apply H. now right.
  - intros E. apply H. now left.
Qed.

Lemma closing_status_terminal (self : Exporter) (w : TableWorld)
  (t : TableInfo) :
  fst (closing_status self w t) = "success"
  \/ fst (closing_status self w t) = "failed".
Proof.
  unfold closing_status. destruct (export_result self w t); cbn; auto.
Qed.

Lemma update_opened_row (self : Exporter) (w : TableWorld) (t : TableInfo)
  (status message : string) :
  update_row (uuid4 w) status message (utcnow_end w) (opened_row self w t)
  = closed_row self w t status message.
Proof.
  unfold update_row, opened_row, closed_row. cbn [log_id].
  now rewrite String.eqb_refl.
Qed.

(** One table's export leaves the rows it finds as they are, provided its
    identifier is new; its own row, if any, is the opened row or a legal
    step from it. *)
Lemma ledger_after_cases (self : Exporter) (w : TableWorld) (t : TableInfo)
  (l : list LedgerEntry) :
  ~ In (uuid4 w) (map log_id l) ->
  ledger_after self w t l = l
  \/ exists r,
       ledger_after self w t l = (l ++ [r])%list
       /\ row_step (opened_row self w t) r.
Proof.
  intros Hfresh. unfold ledger_after.
  destruct (insert_raises w); [now left|]. right.
  destruct (uuid4 w =? EmptyString);
    [exists (opened_row self w t); split; [reflexivity | now left]|].
  destruct (update_raises w);
    [exists (opened_row self w t); split; [reflexivity | now left]|].
  rewrite List.map_app, map_update_fresh by assumption. cbn [map].
  rewrite update_opened_row. eexists. split; [reflexivity|].
  right. cbn. split; [reflexivity|]. split; [|repeat split].
  apply closing_status_terminal.
Qed.

Lemma row_step_known (r r' : LedgerEntry) :
  log_status r = "in_progress" -> row_step r r' -> known_status r'.
Proof.
  intros Hr [->|[_ [[H|H] _]]]; unfold known_status; auto.
Qed.

Lemma row_step_id (r r' : LedgerEntry) : row_step r r' -> log_id r' = log_id r.
Proof. intros [->|[_ [_ [H _]]]]; [reflexivity | exact H]. Qed.

(** When the identifier is not empty and the UPDATE does not raise, one
    table's export leaves no row open. *)
Lemma ledger_after_settled (self : Exporter) (w : TableWorld) (t : TableInfo)
  (l : list LedgerEntry) :
  uuid4 w <> EmptyString ->
  update_raises w = None ->
  Forall settled l -> Forall settled (ledger_after self w t l).
Proof.
  intros Hid Hupd Hl. unfold ledger_after.
  destruct (insert_raises w); [assumption|].
  apply String.eqb_neq in Hid. rewrite Hid, Hupd.
  rewrite List.map_app. apply Forall_app. split.
  - apply Forall_map. apply Forall_impl with (2 := Hl).
    intros r Hr. unfold update_row.
    destruct (log_id r =? uuid4 w); [|exact Hr].
    unfold settled. cbn [log_status].
    destruct (closing_status_terminal self w t) as [-> | ->]; discriminate.
  - cbn [map]. rewrite update_opened_row. constructor; [|constructor].
    unfold settled, closed_row. cbn [log_status].
    destruct (closing_status_terminal self w t) as [-> | ->]; discriminate.
Qed.

(** A row survives the export of a table that draws another identifier. *)
Lemma ledger_after_keeps (self : Exporter) (w : TableWorld) (t : TableInfo)
  (l : list LedgerEntry) (r : LedgerEntry) :
  In r l -> log_id r <> uuid4 w -> In r (ledger_after self w t l).
Proof.
  intros Hin Hid. unfold ledger_after.
  destruct (insert_raises w); [assumption|].
  destruct (uuid4 w =? EmptyString); [apply in_or_app; now left|].
  destruct (update_raises w); [apply in_or_app; now left|].
  apply in_map_iff. exists r. split.
  - now apply update_row_other.
  - apply in_or_app. now left.
Qed.

(** The row of a table whose ledger calls succeed carries the closing
    status and message. *)
Lemma ledger_after_records (self : Exporter) (w : TableWorld) (t : TableInfo)
  (l : list LedgerEntry) :
  insert_raises w = None ->
  update_raises w = None ->
  uuid4 w <> EmptyString ->
  In (closed_row self w t (fst (closing_status self w t))
        (snd (closing_status self w t)))
     (ledger_after self w t l).
Proof.
  intros Hi Hu Hid. unfold ledger_after. apply String.eqb_neq in Hid.
  rewrite Hi, Hid, Hu. rewrite List.map_app. apply in_or_app. right.
  cbn [map]. rewrite update_opened_row. now left.
Qed.

Lemma loop_ledger_app (self : Exporter) (rw : RunWorld)
  (pre post : list TableInfo) :
  forall idx l,
    loop_ledger self rw idx (pre ++ post)%list l
    = loop_ledger self rw (idx + List.length pre) post
        (loop_ledger self rw idx pre l).
Proof.
  induction pre as [|t pre IH]; intros idx l; cbn [app loop_ledger List.length].
  - now rewrite Nat.add_0_r.
  - rewrite IH. now rewrite Nat.add_succ_r.
Qed.

Lemma loop_ledger_keeps (self : Exporter) (rw : RunWorld) (r : LedgerEntry)
  (tables : list TableInfo) :
  forall idx l,
    In r l ->
    (forall j, idx <= j -> j < idx + List.length tables ->
               uuid4 (table_world rw j) <> log_id r) ->
    In r (loop_ledger self rw idx tables l).
Proof.
  induction tables as [|t rest IH]; intros idx l Hin Hids; cbn [loop_ledger];
    [assumption|].
  apply IH.
  - apply ledger_after_keeps; [assumption|].
    intros E. apply (Hids idx); [lia | cbn [List.length]; lia | now symmetry].
  - intros j H1 H2. apply Hids; [lia | cbn [List.length]; lia].
Qed.

Lemma loop_ledger_settled (self : Exporter) (rw : RunWorld)
  (tables : list TableInfo) :
  forall idx l,
    (forall j, idx <= j -> j < idx + List.length tables ->
               uuid4 (table_world rw j) <> EmptyString
               /\ update_raises (table_world rw j) = None) ->
    Forall settled l ->
    Forall settled (loop_ledger self rw idx tables l).
Proof.
  induction tables as [|t rest IH]; intros idx l Hw Hl; cbn [loop_ledger];
    [assumption|].
  apply IH.
  - intros j H1 H2. apply Hw; [lia | cbn [List.length]; lia].
  - destruct (Hw idx) as [Hid Hu]; [lia | cbn [List.length]; lia|].
    now apply ledger_after_settled.
Qed.

(** With identifiers that are new and pairwise distinct, the loop only
    appends rows, each one a legal step from the row opened for a table. *)
Lemma loop_ledger_grows (self : Exporter) (rw : RunWorld)
  (tables : list TableInfo) :
  forall idx l,
    NoDup (loop_ids rw idx (List.length tables)) ->
    (forall id, In id (loop_ids rw idx (List.length tables)) ->
                ~ In id (map log_id l)) ->
    exists added,
      loop_ledger self rw idx tables l = (l ++ added)%list
      /\ Forall (fun r =>
                   exists j t,
                     idx <= j
                     /\ row_step (opened_row self (table_world rw j) t) r)
                added.
Proof.
  induction tables as [|t rest IH]; intros idx l Hnd Hfresh;
    cbn [loop_ledger List.length] in *.
  - exists []. split; [now rewrite List.app_nil_r | constructor].
  - unfold loop_ids in Hnd, Hfresh. cbn [seq map] in Hnd, Hfresh.
    fold (loop_ids rw (S idx) (List.length rest)) in Hnd, Hfresh.
    inversion Hnd as [|x xs Hx Hnd' E]. subst x xs.
    assert (Hhead : ~ In (uuid4 (table_world rw idx)) (map log_id l))
      by (apply Hfresh; now left).
    destruct (ledger_after_cases self (table_world rw idx) t l Hhead)
      as [E | [r [E Hr]]]; rewrite E.
    + destruct (IH (S idx) l Hnd') as [added [Ea Ha]].
      * intros id Hid. apply Hfresh. now right.
      * exists added. split; [exact Ea|].
        apply Forall_impl with (2 := Ha).
        intros r [j [t' [Hj Hs]]]. exists j, t'. split; [lia | exact Hs].
    + destruct (IH (S idx) (l ++ [r])%list Hnd') as [added [Ea Ha]].
      * intros id Hid Hin. rewrite List.map_app in Hin.
        apply in_app_or in Hin. destruct Hin as [Hin | Hin].
        -- apply (Hfresh id); [now right | exact Hin].
        -- cbn in Hin. destruct Hin as [Hin | []].
           rewrite (row_step_id _ _ Hr) in Hin. cbn in Hin.
           subst id. contradiction.
      * exists (r :: added). split.
        -- rewrite Ea, <- List.app_assoc. reflexivity.
        -- constructor.
           ++ exists idx, t. split; [lia | exact Hr].
           ++ apply Forall_impl with (2 := Ha).
              intros r' [j [t' [Hj Hs]]]. exists j, t'.
              split; [lia | exact Hs].
Qed.

(** ** Ledger failures during a table's export *)

(** C10. Whatever faults the ledger INSERT and UPDATE meet, the export of a
    table returns or raises as it does without them and hands the same COPY
    statement to the engine; when the INSERT raises, the ledger gets no row
    for the table. *)
Theorem ledger_failures_tolerated (self : Exporter) (w : TableWorld)
  (t : TableInfo) (st : State) (ins upd : option exn) :
  fst (export_table_data self (with_ledger_faults ins upd w) t st)
  = fst (export_table_data self w t st)
  /\ (forall q,
        copy_statement self t = Returned q ->
        In (Execute q)
           (events (snd (export_table_data self
                           (with_ledger_faults ins upd w) t st))))
  /\ (ins <> None ->
      export_logs (snd (export_table_data self
                          (with_ledger_faults ins upd w) t st))
      = export_logs st).
Proof.
  rewrite !export_table_data_closed_form. cbn [fst snd events export_logs].
  split; [reflexivity|]. split.
  - intros q Hq. apply in_or_app. right.
    now apply table_events_facts.
  - intros Hins. unfold ledger_after, with_ledger_faults.
    cbn [insert_raises]. destruct ins; [reflexivity | contradiction].
Qed.

Lemma ledger_failures_tolerated_witness :
  fst (export_table_data Scenario.pg
         (with_ledger_faults (Some Scenario.boom) (Some Scenario.boom)
            Scenario.w_ok)
         Scenario.t_orders initial_state)
  = fst (export_table_data Scenario.pg Scenario.w_ok Scenario.t_orders
           initial_state)
  /\ In (Execute Scenario.copy_orders)
        (events (snd (export_table_data Scenario.pg
                        (with_ledger_faults (Some Scenario.boom)
                           (Some Scenario.boom) Scenario.w_ok)
                        Scenario.t_orders initial_state)))
  /\ export_logs (snd (export_table_data Scenario.pg
                         (with_ledger_faults (Some Scenario.boom)
                            (Some Scenario.boom) Scenario.w_ok)
                         Scenario.t_orders initial_state))
     = export_logs initial_state.
Proof.
  destruct (ledger_failures_tolerated Scenario.pg Scenario.w_ok
              Scenario.t_orders initial_state (Some Scenario.boom)
              (Some Scenario.boom)) as [H1 [H2 H3]].
  split; [exact H1|]. split.
  - apply H2. reflexivity.
  - apply H3. discriminate.
Defined.

(** ** Life of a ledger entry *)

(** C7, as stated, fails: when the ledger UPDATE of a table raises, the
    exception is swallowed and the table's row is still 'in_progress' after
    the loop has completed. *)
Lemma entry_left_in_progress :
  fst (export_all_tables Scenario.pg
         (Scenario.healthy_run Scenario.second_update_fails)
         Scenario.three_tables initial_state)
  = Returned tt
  /\ map (fun r => (log_full_name r, log_status r))
         (export_logs
            (snd (export_all_tables Scenario.pg
                    (Scenario.healthy_run Scenario.second_update_fails)
                    Scenario.three_tables initial_state)))
     = [("sales.orders", "success"); ("sales.codes", "in_progress");
        ("sales.legacy", "success")].
Proof.
  vm_compute. split; reflexivity.
Qed.

(** C7, amended. A ledger entry is created with status 'in_progress'; with
    identifiers that are new and pairwise distinct, the export of all tables
    keeps every row it finds, unchanged and in place, and each row it adds
    is the row opened for a table or that row moved from 'in_progress' to
    'success' or 'failed'; and when no identifier is empty and no ledger
    UPDATE raises, no row is left 'in_progress' after the loop. *)
Theorem ledger_lifecycle (self : Exporter) (rw : RunWorld) (md : Metadata)
  (st : State) :
  (forall w t p st0,
     export_logs (snd (_log_export_start w t p st0)) = export_logs st0
     \/ exists r,
          export_logs (snd (_log_export_start w t p st0))
          = (export_logs st0 ++ [r])%list
          /\ log_status r = "in_progress")
  /\ (NoDup (loop_ids rw 1 (List.length (tables md))) ->
      (forall id, In id (loop_ids rw 1 (List.length (tables md))) ->
                  ~ In id (map log_id (export_logs st))) ->
      exists added,
        export_logs (snd (export_all_tables self rw md st))
        = (export_logs st ++ added)%list
        /\ Forall (fun r =>
                     exists j t,
                       row_step (opened_row self (table_world rw j) t) r)
                  added)
  /\ ((forall j, 1 <= j -> j <= List.length (tables md) ->
                 uuid4 (table_world rw j) <> EmptyString
                 /\ update_raises (table_world rw j) = None) ->
      Forall settled (export_logs st) ->
      Forall settled (export_logs (snd (export_all_tables self rw md st)))).
Proof.
  destruct (export_all_tables_closed_form self rw md st) as [_ [Hl _]].
  split; [|split].
  - intros w t p st0.
    unfold _log_export_start, execute, set_export_logs, bind, emit, raise, ret.
    destruct (insert_raises w); cbn [snd export_logs].
    + now left.
    + right. eexists. split; reflexivity.
  - intros Hnd Hfresh. rewrite Hl.
    destruct (loop_ledger_grows self rw (tables md) 1 (export_logs st)
                Hnd Hfresh) as [added [E Ha]].
    exists added. split; [exact E|].
    apply Forall_impl with (2 := Ha).
    intros r [j [t [_ Hs]]]. now exists j, t.
  - intros Hw Hs. rewrite Hl. apply loop_ledger_settled; [|exact Hs].
    intros j H1 H2. apply Hw; lia.
Qed.

Lemma ledger_lifecycle_witness :
  (exists added,
     export_logs (snd (export_all_tables Scenario.pg
                         (Scenario.healthy_run Scenario.second_copy_fails)
                         Scenario.three_tables initial_state))
     = (export_logs initial_state ++ added)%list
     /\ Forall (fun r =>
                  exists j t,
                    row_step
                      (opened_row Scenario.pg
                         (Scenario.second_copy_fails j) t) r)
               added)
  /\ Forall settled
       (export_logs (snd (export_all_tables Scenario.pg
                            (Scenario.healthy_run Scenario.second_copy_fails)
                            Scenario.three_tables initial_state))).
Proof.
  destruct (ledger_lifecycle Scenario.pg
              (Scenario.healthy_run Scenario.second_copy_fails)
              Scenario.three_tables initial_state) as [_ [H2 H3]].
  split.
  - apply H2.
    + repeat constructor; cbn; intuition discriminate.
    + intros id _ [].
  - apply H3.
    + intros j H1 Hj. cbn in Hj.
      destruct j as [|[|[|[|j]]]]; try lia;
        (split; [discriminate | reflexivity]).
    + constructor.
Defined.

(** ** The run and the isolation of a table's failure *)

Lemma bind_assoc_cong {A B C} (m : M A) (k : A -> M B) (h : B -> M C)
  (r : A -> M C) :
  (forall a st, bind (k a) h st = r a st) ->
  forall st, bind (bind m k) h st = bind m r st.
Proof.
  intros H st. unfold bind. destruct (m st) as [[a|x] st'].
  - exact (H a st').
  - reflexivity.
Qed.

(** The steps of [run] are those before the export, then the export of
    the tables and the closing banner. *)
Lemma run_steps_split (self : Exporter) (rw : RunWorld) (st : State) :
  run_steps self rw st
  = bind (before_export self rw)
      (fun metadata =>
         export_all_tables self rw metadata ;;
         print (PyStr.nl ++ banner) ;;
         print "EXPORT COMPLETED SUCCESSFULLY" ;;
         print banner) st.
Proof.
  symmetry. unfold before_export, run_steps.
  do 8 (apply bind_assoc_cong; intros ? ?).
  reflexivity.
Qed.

Lemma run_exit_status (self : Exporter) (rw : RunWorld) (st : State) :
  fst (run self rw st)
  = match fst (before_export self rw st) with
    | Returned _ => 0
    | Raised _ => 1
    end.
Proof.
  unfold run. rewrite run_steps_split. unfold bind at 1.
  destruct (before_export self rw st) as [[md|x] st1]; cbn [fst];
    [|reflexivity].
  destruct (export_all_tables_closed_form self rw md st1) as [Ha _].
  unfold bind at 1.
  destruct (export_all_tables self rw md st1) as [[[]|x] st2];
    cbn [fst] in Ha; [|discriminate].
  reflexivity.
Qed.

Lemma loop_events_in (self : Exporter) (rw : RunWorld) (total : nat)
  (ev : event) (t : TableInfo) (post : list TableInfo)
  (pre : list TableInfo) :
  forall idx,
    In ev (table_events self (table_world rw (idx + List.length pre)) t) ->
    In ev (loop_events self rw total idx (pre ++ t :: post)%list).
Proof.
  induction pre as [|t' pre IH]; intros idx H;
    cbn [app loop_events List.length] in *.
  - rewrite Nat.add_0_r in H. right. apply in_or_app. now left.
  - right. apply in_or_app. right. apply in_or_app. right.
    apply IH. now rewrite Nat.add_succ_r in H.
Qed.

(** C1, as stated, fails: the COPY of the second table raises, and so does
    its ledger INSERT; the run still exits with status 0 and the third table
    is exported, but the ledger holds no 'failed' row for the second
    table. *)
Lemma failed_table_unrecorded :
  export_result Scenario.pg (Scenario.second_unlogged 2) Scenario.t_unique
  = Raised Scenario.boom
  /\ fst (run Scenario.pg (Scenario.healthy_run Scenario.second_unlogged)
            initial_state) = 0
  /\ map (fun r => (log_full_name r, log_status r))
         (export_logs
            (snd (run Scenario.pg
                    (Scenario.healthy_run Scenario.second_unlogged)
                    initial_state)))
     = [("sales.orders", "success"); ("sales.legacy", "success")].
Proof.
  vm_compute. repeat split.
Qed.

(** C1, amended. The export of all tables never raises, so the exit status
    of the run is decided by the steps before it (connection and metadata),
    which do not depend on what happens while tables are exported; every
    table is entered in discovery order and its COPY statement is handed to
    the engine whatever happened to the tables before it; and a table whose
    export raises gets a 'failed' row with the error message whenever its
    ledger INSERT and UPDATE succeed (and identifiers are not reused). *)
Theorem table_failure_isolated (self : Exporter) (rw : RunWorld)
  (md : Metadata) (st : State) :
  fst (export_all_tables self rw md st) = Returned tt
  /\ fst (run self rw st)
     = match fst (before_export self rw st) with
       | Returned _ => 0
       | Raised _ => 1
       end
  /\ (forall tw now fc fs st0,
        before_export self (with_export_world tw now fc fs rw) st0
        = before_export self rw st0)
  /\ (exists post,
        events (snd (export_all_tables self rw md st))
        = (events st
           ++ [Print (PyStr.nl ++ "Starting data export for "
                      ++ PyStr.of_nat (List.length (tables md))
                      ++ " tables...")]
           ++ loop_events self rw (List.length (tables md)) 1 (tables md)
           ++ post)%list)
  /\ (forall pre t post,
        tables md = (pre ++ t :: post)%list ->
        In (Print (PyStr.nl ++ "Exporting table: " ++ full_name t))
           (events (snd (export_all_tables self rw md st)))
        /\ forall q,
             copy_statement self t = Returned q ->
             In (Execute q) (events (snd (export_all_tables self rw md st))))
  /\ (forall pre t post e,
        tables md = (pre ++ t :: post)%list ->
        export_result self (table_world rw (S (List.length pre))) t
        = Raised e ->
        insert_raises (table_world rw (S (List.length pre))) = None ->
        update_raises (table_world rw (S (List.length pre))) = None ->
        uuid4 (table_world rw (S (List.length pre))) <> EmptyString ->
        (forall j, S (List.length pre) < j -> j <= List.length (tables md) ->
                   uuid4 (table_world rw j)
                   <> uuid4 (table_world rw (S (List.length pre)))) ->
        In (closed_row self (table_world rw (S (List.length pre))) t
              "failed" (str_exn e))
           (export_logs (snd (export_all_tables self rw md st)))).
Proof.
  destruct (export_all_tables_closed_form self rw md st)
    as [Hret [Hl [tail Hev]]].
  split; [exact Hret|]. split; [apply run_exit_status|].
  split; [reflexivity|]. split; [now exists tail|]. split.
  - intros pre t post E. rewrite Hev, E.
    destruct (table_events_facts self
                (table_world rw (1 + List.length pre)) t) as [H1 H2].
    split; [|intros q Hq].
    + apply in_or_app. right. apply in_or_app. right. apply in_or_app. left.
      apply loop_events_in. exact H1.
    + apply in_or_app. right. apply in_or_app. right. apply in_or_app. left.
      apply loop_events_in. now apply H2.
  - intros pre t post e E He Hi Hu Hid Hother. rewrite Hl, E.
    rewrite loop_ledger_app. cbn [loop_ledger Nat.add].
    apply loop_ledger_keeps.
    + pose proof (ledger_after_records self
                    (table_world rw (S (List.length pre))) t
                    (loop_ledger self rw 1 pre (export_logs st)) Hi Hu Hid)
        as H.
      unfold closing_status in H. rewrite He in H. exact H.
    + intros j H1 H2. cbn [closed_row log_id]. apply Hother; [lia|].
      rewrite E, List.length_app. cbn [List.length]. lia.
Qed.

Lemma table_failure_isolated_witness :
  fst (run Scenario.pg (Scenario.healthy_run Scenario.second_copy_fails)
         initial_state) = 0
  /\ In (closed_row Scenario.pg (Scenario.second_copy_fails 2)
           Scenario.t_unique "failed" "IO Error: connection reset")
        (export_logs
           (snd (export_all_tables Scenario.pg
                   (Scenario.healthy_run Scenario.second_copy_fails)
                   Scenario.three_tables initial_state)))
  /\ In (Print (PyStr.nl ++ "Exporting table: "
                ++ full_name Scenario.t_first_column))
        (events
           (snd (export_all_tables Scenario.pg
                   (Scenario.healthy_run Scenario.second_copy_fails)
                   Scenario.three_tables initial_state))).
Proof.
  destruct (table_failure_isolated Scenario.pg
              (Scenario.healthy_run Scenario.second_copy_fails)
              Scenario.three_tables initial_state)
    as [_ [H2 [_ [_ [H5 H6]]]]].
  split; [|split].
  - rewrite H2. vm_compute. reflexivity.
  - apply (H6 [Scenario.t_orders] Scenario.t_unique
              [Scenario.t_first_column] Scenario.boom).
    + reflexivity.
    + reflexivity.
    + reflexivity.
    + reflexivity.
    + discriminate.
    + intros j H1 Hj. cbn in H1, Hj.
      destruct j as [|[|[|j]]];
        [discriminate | discriminate | exfalso; lia | discriminate].
  - exact (proj1 (H5 [Scenario.t_orders; Scenario.t_unique]
                    Scenario.t_first_column [] eq_refl)).
Defined.

(** ** Metadata artifacts: the local fallback *)

(** A path that starts with the scheme has it replaced by the local
    directory; the rest of the path is scanned in the same way. *)
Lemma local_path_of_scheme (rest : string) :
  local_path_of ("s3://" ++ rest) = "local_export/" ++ local_path_of rest.
Proof. reflexivity. Qed.

Lemma local_path_of_plain (s : string) :
  PyStr.contains "s3://" s = false -> local_path_of s = s.
Proof.
  unfold local_path_of, PyStr.replace.
  induction s as [|c s IH]; intros H; [reflexivity|].
  cbn [PyStr.contains] in H. cbn [PyStr.replace_scan].
  destruct (PyStr.startswith "s3://" (String c s)); [discriminate|].
  now rewrite IH.
Qed.

(** When the remote write raises and the local one does not, the fallback
    writes the content as it is to the local path, under a directory it has
    made, and [_save_to_s3] returns. *)
Lemma save_to_s3_fallback (rw : RunWorld) (s3_path content : string)
  (st : State) (e : exn) :
  s3_copy_raises rw s3_path = Some e ->
  PosixPath.dirname (local_path_of s3_path) <> EmptyString ->
  makedirs_raises rw (PosixPath.dirname (local_path_of s3_path)) = None ->
  open_raises rw (local_path_of s3_path) = None ->
  fst (_save_to_s3 rw s3_path content st) = Returned tt
  /\ local_files (snd (_save_to_s3 rw s3_path content st))
     = (local_path_of s3_path, content) :: local_files st
  /\ local_dirs (snd (_save_to_s3 rw s3_path content st))
     = PosixPath.dirname (local_path_of s3_path) :: local_dirs st.
Proof.
  intros Hs Hd Hm Ho. apply String.eqb_neq in Hd.
  unfold _save_to_s3, try_except, execute, makedirs, write_file, bind, print,
    emit, raise, ret.
  rewrite Hs, Hd, Hm, Ho. cbn [fst snd local_files local_dirs].
  repeat split.
Qed.

(** When the local write raises as well, the exception leaves
    [_save_to_s3]. *)
Lemma save_to_s3_fallback_raises (rw : RunWorld) (s3_path content : string)
  (st : State) (e e' : exn) :
  s3_copy_raises rw s3_path = Some e ->
  PosixPath.dirname (local_path_of s3_path) <> EmptyString ->
  makedirs_raises rw (PosixPath.dirname (local_path_of s3_path)) = None ->
  open_raises rw (local_path_of s3_path) = Some e' ->
  fst (_save_to_s3 rw s3_path content st) = Raised e'.
Proof.
  intros Hs Hd Hm Ho. apply String.eqb_neq in Hd.
  unfold _save_to_s3, try_except, execute, makedirs, write_file, bind, print,
    emit, raise, ret.
  rewrite Hs, Hd, Hm, Ho. reflexivity.
Qed.

(** C5. With object storage refusing writes and the local fallback working,
    the run succeeds and the metadata is on the local disk; with the local
    directory unwritable too, the failure of the fallback ends the run with
    status 1 before any table is exported. *)
Theorem save_fallback_failure_aborts_run :
  (fst (run Scenario.pg Scenario.offline_run initial_state) = 0
   /\ In ("local_export/bucket/metadata/metadata_20240501_095900.json", "{}")
         (local_files (snd (run Scenario.pg Scenario.offline_run
                              initial_state))))
  /\ fst (run Scenario.pg Scenario.unwritable_run initial_state) = 1
  /\ In (Stderr (PyStr.nl
                 ++ "ERROR: Export failed: [Errno 13] Permission denied"))
        (events (snd (run Scenario.pg Scenario.unwritable_run initial_state)))
  /\ export_logs (snd (run Scenario.pg Scenario.unwritable_run initial_state))
     = []
  /\ local_files (snd (run Scenario.pg Scenario.unwritable_run initial_state))
     = [].
Proof.
  vm_compute. intuition.
Qed.

(** ** Quoting in the generated statements *)

Lemma escape_quotes_cons (c : ascii) (v : string) :
  escape_quotes (String c v)
  = if Ascii.eqb c "'" then "''" ++ escape_quotes v
    else String c (escape_quotes v).
Proof.
  unfold escape_quotes, PyStr.replace.
  cbn [PyStr.replace_scan PyStr.startswith String.length Nat.sub].
  rewrite Ascii.eqb_sym. destruct (Ascii.eqb c "'"); reflexivity.
Qed.

Lemma read_literal_quote_end (rest : string) :
  PyStr.startswith "'" rest = false ->
  read_literal (String "'" rest) = Some (EmptyString, rest).
Proof.
  intros H. destruct rest as [|c' rest']; [reflexivity|].
  cbn [PyStr.startswith] in H. cbn [read_literal].
  rewrite Ascii.eqb_refl. rewrite Ascii.eqb_sym.
  destruct (Ascii.eqb "'" c'); [discriminate | reflexivity].
Qed.

Lemma read_literal_doubled (s : string) :
  read_literal (String "'" (String "'" s))
  = match read_literal s with
    | Some (v, rest) => Some (String "'" v, rest)
    | None => None
    end.
Proof. cbn [read_literal]. rewrite Ascii.eqb_refl. reflexivity. Qed.

Lemma read_literal_plain (c : ascii) (s : string) :
  Ascii.eqb c "'" = false ->
  read_literal (String c s)
  = match read_literal s with
    | Some (v, rest) => Some (String c v, rest)
    | None => None
    end.
Proof. intros H. cbn [read_literal]. now rewrite H. Qed.

(** The escaping rule: a value escaped by [escape_quotes] and closed by a
    quote is read back as that value. *)
Lemma read_escaped_literal (v rest : string) :
  PyStr.startswith "'" rest = false ->
  read_literal (escape_quotes v ++ "'" ++ rest) = Some (v, rest).
Proof.
  intros Hrest. induction v as [|c v IH].
  - apply read_literal_quote_end. exact Hrest.
  - rewrite escape_quotes_cons. destruct (Ascii.eqb c "'") eqn:E.
    + apply Ascii.eqb_eq in E. subst c.
      change (("''" ++ escape_quotes v) ++ "'" ++ rest)
        with (String "'" (String "'" (escape_quotes v ++ "'" ++ rest))).
      rewrite read_literal_doubled, IH. reflexivity.
    + change (String c (escape_quotes v) ++ "'" ++ rest)
        with (String c (escape_quotes v ++ "'" ++ rest)).
      rewrite read_literal_plain by exact E. now rewrite IH.
Qed.

(** C6. For a table whose name holds a quote, the ledger INSERT carries the
    destination path escaped, and the engine reads the path back; the COPY
    statement carries the same path as it is, and the engine reads a
    different destination.  Quoted identifiers are not escaped either. *)
Theorem copy_destination_not_escaped :
  table_s3_path Scenario.pg "dbo" "O'Brien"
  = "s3://bucket/dbo/O'Brien/O'Brien.parquet"
  /\ literal_after "'dbo.O''Brien', '" Scenario.insert_quote
     = Some "s3://bucket/dbo/O'Brien/O'Brien.parquet"
  /\ copy_statement Scenario.pg Scenario.t_quote
     = Returned Scenario.copy_quote
  /\ literal_after ") TO '" Scenario.copy_quote = Some "s3://bucket/dbo/O"
  /\ table_query Scenario.mssql "dbo" "a]b" EmptyString
     = "SELECT * FROM [dbo].[a]b]"
  /\ quote_col ("a" ++ PyStr.dquote ++ "b")
     = PyStr.dquote ++ "a" ++ PyStr.dquote ++ "b" ++ PyStr.dquote.
Proof.
  vm_compute. intuition.
Qed.

(** * Further properties of the exporter *)

(** ** What the engine reads in the generated statements *)

Lemma escape_quotes_sq_free (v : string) : sq_free v -> escape_quotes v = v.
Proof.
  unfold sq_free. induction v as [|c v IH]; intros H; [reflexivity|].
  rewrite escape_quotes_cons. cbn [PyStr.contains_char] in H.
  destruct (Ascii.eqb c "'"); [discriminate|]. now rewrite IH.
Qed.

(** Inside a literal, an escaped value followed by a closing quote is read
    as the value. *)
Lemma sql_literals_value (v : string) :
  forall cur rest,
    PyStr.startswith "'" rest = false ->
    sql_literals true cur (escape_quotes v ++ String "'" rest)
    = (cur ++ v) :: sql_literals false EmptyString rest.
Proof.
  induction v as [|c v IH]; intros cur rest Hrest.
  - cbn [escape_quotes PyStr.replace PyStr.replace_scan append sql_literals].
    rewrite Ascii.eqb_refl, StringFacts.app_empty_r.
    destruct rest as [|c' rest']; [reflexivity|].
    cbn [PyStr.startswith] in Hrest. rewrite Ascii.eqb_sym.
    destruct (Ascii.eqb "'" c'); [discriminate | reflexivity].
  - rewrite escape_quotes_cons. destruct (Ascii.eqb c "'") eqn:E.
    + apply Ascii.eqb_eq in E. subst c.
      change (("''" ++ escape_quotes v) ++ String "'" rest)
        with (String "'" (String "'" (escape_quotes v ++ String "'" rest))).
      cbn [sql_literals]. rewrite Ascii.eqb_refl.
      rewrite IH by exact Hrest. now rewrite StringFacts.app_assoc.
    + change (String c (escape_quotes v) ++ String "'" rest)
        with (String c (escape_quotes v ++ String "'" rest)).
      cbn [sql_literals]. rewrite E.
      rewrite IH by exact Hrest. now rewrite StringFacts.app_assoc.
Qed.

Lemma sql_literals_raw (v : string) (cur rest : string) :
  sq_free v ->
  PyStr.startswith "'" rest = false ->
  sql_literals true cur (v ++ String "'" rest)
  = (cur ++ v) :: sql_literals false EmptyString rest.
Proof.
  intros Hv Hrest. rewrite <- (escape_quotes_sq_free v Hv) at 1.
  now apply sql_literals_value.
Qed.

Lemma sql_literals_skip (pre : string) :
  sq_free pre ->
  forall cur s,
    sql_literals false cur (pre ++ s) = sql_literals false EmptyString s.
Proof.
  unfold sq_free. induction pre as [|c pre IH]; intros H cur s.
  - cbn [append]. destruct s as [|c s']; reflexivity.
  - cbn [PyStr.contains_char] in H. cbn [append sql_literals].
    destruct (Ascii.eqb c "'"); [discriminate|]. now apply IH.
Qed.

(** Reads the literals of a statement whose fixed text is known. *)
Ltac read_literals :=
  unfold literals_of;
  repeat first
    [ progress (with_strategy opaque [escape_quotes] cbn)
    | rewrite StringFacts.app_assoc
    | rewrite sql_literals_value by reflexivity
    | rewrite sql_literals_raw by (assumption || reflexivity) ].

(** The INSERT that opens a ledger entry carries, as the engine reads it,
    exactly the fields of the row: quotes inside the schema, the names and
    the path do not break it. *)
Theorem insert_statement_roundtrip (w : TableWorld) (t : TableInfo)
  (p : string) (st : State) :
  sq_free (uuid4 w) ->
  sq_free (utcnow_start w) ->
  exists sql,
    events (snd (_log_export_start w t p st))
    = (events st ++ [Execute sql])%list
    /\ literals_of sql
       = [uuid4 w; schema t; name t; full_name t; p; "in_progress";
          EmptyString; utcnow_start w].
Proof.
  intros Hid Hts. eexists. split.
  - unfold _log_export_start, execute, set_export_logs, bind, emit, raise, ret.
    destruct (insert_raises w); cbn [snd events]; reflexivity.
  - read_literals. reflexivity.
Qed.

Lemma insert_statement_roundtrip_witness :
  exists sql,
    events (snd (_log_export_start Scenario.w_ok Scenario.t_quote
                   "s3://bucket/dbo/O'Brien/O'Brien.parquet" initial_state))
    = (events initial_state ++ [Execute sql])%list
    /\ literals_of sql
       = ["6f1c-01"; "dbo"; "O'Brien"; "dbo.O'Brien";
          "s3://bucket/dbo/O'Brien/O'Brien.parquet"; "in_progress";
          EmptyString; "2024-05-01 10:00:00"].
Proof.
  apply (insert_statement_roundtrip Scenario.w_ok Scenario.t_quote
           "s3://bucket/dbo/O'Brien/O'Brien.parquet" initial_state);
    reflexivity.
Defined.

(** The UPDATE that closes a ledger entry carries the status, the message,
    the time and the identifier; an error message with quotes in it arrives
    whole. *)
Theorem update_statement_roundtrip (w : TableWorld)
  (id status message : string) (st : State) :
  sq_free id ->
  sq_free status ->
  sq_free (utcnow_end w) ->
  exists sql,
    events (snd (_log_export_end w id status message st))
    = (events st ++ [Execute sql])%list
    /\ literals_of sql = [status; message; utcnow_end w; id].
Proof.
  intros Hid Hstatus Hts. eexists. split.
  - unfold _log_export_end, execute, set_export_logs, bind, emit, raise, ret.
    destruct (update_raises w); cbn [snd events]; reflexivity.
  - read_literals. reflexivity.
Qed.

Lemma update_statement_roundtrip_witness :
  exists sql,
    events (snd (_log_export_end Scenario.w_ok "6f1c-01" "failed"
                   "syntax error at or near 'x'" initial_state))
    = (events initial_state ++ [Execute sql])%list
    /\ literals_of sql
       = ["failed"; "syntax error at or near 'x'"; "2024-05-01 10:00:07";
          "6f1c-01"].
Proof.
  apply (update_statement_roundtrip Scenario.w_ok "6f1c-01" "failed"
           "syntax error at or near 'x'" initial_state);
    reflexivity.
Defined.

(** The scan function hands its arguments to the scanner whole: the ODBC
    connection string and the query for SQL Server and Oracle, the
    connection descriptor, the schema and the table for PostgreSQL,
    whatever quotes they hold. *)
Theorem scan_function_literals (self : Exporter) (sch tbl so : string) :
  (db_type self = "sqlserver" \/ db_type self = "oracle" ->
   exists scan,
     scan_function self sch tbl so = Returned scan
     /\ literals_of scan = [odbc_conn self; table_query self sch tbl so])
  /\ (db_type self = "postgresql" ->
      exists scan,
        scan_function self sch tbl so = Returned scan
        /\ literals_of scan = [pg_conn self; sch; tbl]).
Proof.
  split.
  - intros H. unfold scan_function.
    assert (E : (db_type self =? "sqlserver") || (db_type self =? "oracle")
                = true)
      by (destruct H as [-> | ->]; reflexivity).
    rewrite E. eexists. split; [reflexivity|].
    read_literals. reflexivity.
  - intros H. unfold scan_function. rewrite H.
    cbn [String.eqb Ascii.eqb Bool.eqb orb].
    eexists. split; [reflexivity|].
    read_literals. reflexivity.
Qed.

Lemma scan_function_literals_witness :
  (exists scan,
     scan_function Scenario.mssql "dbo" "O'Brien" EmptyString = Returned scan
     /\ literals_of scan
        = [odbc_conn Scenario.mssql;
           table_query Scenario.mssql "dbo" "O'Brien" EmptyString])
  /\ (exists scan,
        scan_function Scenario.pg "dbo" "O'Brien" EmptyString = Returned scan
        /\ literals_of scan = [pg_conn Scenario.pg; "dbo"; "O'Brien"]).
Proof.
  split.
  - apply (proj1 (scan_function_literals Scenario.mssql "dbo" "O'Brien"
                    EmptyString)).
    left. reflexivity.
  - apply (proj2 (scan_function_literals Scenario.pg "dbo" "O'Brien"
                    EmptyString)).
    reflexivity.
Defined.

(** Reads the literals of a statement that also holds quote-free text
    outside its literals. *)
Ltac read_literals_skipping :=
  unfold literals_of;
  repeat first
    [ progress (with_strategy opaque [escape_quotes] cbn)
    | rewrite StringFacts.app_assoc
    | rewrite sql_literals_value by reflexivity
    | rewrite sql_literals_raw by (assumption || reflexivity)
    | rewrite sql_literals_skip by assumption ].

(** When object storage accepts the write, [_save_to_s3] hands one
    statement to the engine and touches nothing else; the statement carries
    the content whole, whatever quotes it holds, and the destination. *)
Theorem save_to_s3_remote (rw : RunWorld) (s3_path content : string)
  (st : State) :
  s3_copy_raises rw s3_path = None ->
  sq_free s3_path ->
  exists sql,
    _save_to_s3 rw s3_path content st
    = (Returned tt,
       mkState (export_logs st) (events st ++ [Execute sql])%list
               (local_dirs st) (local_files st))
    /\ literals_of sql = [content; s3_path; "csv"].
Proof.
  intros Hs Hp. eexists. split.
  - unfold _save_to_s3, try_except, execute, bind, emit, ret. rewrite Hs.
    reflexivity.
  - read_literals_skipping. reflexivity.
Qed.

Lemma save_to_s3_remote_witness :
  exists sql,
    _save_to_s3 (Scenario.healthy_run Scenario.second_copy_fails)
      "s3://bucket/metadata/tables/dbo/t.sql" "DEFAULT 'n/a'" initial_state
    = (Returned tt,
       mkState (export_logs initial_state)
               (events initial_state ++ [Execute sql])%list
               (local_dirs initial_state) (local_files initial_state))
    /\ literals_of sql
       = ["DEFAULT 'n/a'"; "s3://bucket/metadata/tables/dbo/t.sql"; "csv"].
Proof.
  apply (save_to_s3_remote (Scenario.healthy_run Scenario.second_copy_fails)
           "s3://bucket/metadata/tables/dbo/t.sql" "DEFAULT 'n/a'"
           initial_state);
    reflexivity.
Defined.

(** When the destination path holds no quote, the COPY statement of a table
    carries the scanner's arguments and the destination whole, followed by
    the format and the compression. *)
Theorem copy_statement_literals (self : Exporter) (t : TableInfo) :
  sq_free (table_s3_path self (schema t) (name t)) ->
  (db_type self = "sqlserver" \/ db_type self = "oracle" ->
   exists q,
     copy_statement self t = Returned q
     /\ literals_of q
        = [odbc_conn self;
           table_query self (schema t) (name t) (sort_order t);
           table_s3_path self (schema t) (name t); "parquet"; "ZSTD"])
  /\ (db_type self = "postgresql" ->
      sq_free (sort_order t) ->
      exists q,
        copy_statement self t = Returned q
        /\ literals_of q
           = [pg_conn self; schema t; name t;
              table_s3_path self (schema t) (name t); "parquet"; "ZSTD"]).
Proof.
  intros Hp. split.
  - intros H. unfold copy_statement, scan_function, export_query.
    assert (E : (db_type self =? "sqlserver") || (db_type self =? "oracle")
                = true)
      by (destruct H as [-> | ->]; reflexivity).
    assert (E' : (db_type self =? "postgresql") = false)
      by (destruct H as [-> | ->]; reflexivity).
    rewrite E, E'. cbn [andb]. eexists. split; [reflexivity|].
    read_literals_skipping. reflexivity.
  - intros H Hso. unfold copy_statement, scan_function, export_query.
    rewrite H. cbn [String.eqb Ascii.eqb Bool.eqb orb andb].
    destruct (sort_order t =? EmptyString); cbn [negb];
      (eexists; split; [reflexivity|]); read_literals_skipping; reflexivity.
Qed.

Lemma copy_statement_literals_witness :
  (exists q,
     copy_statement Scenario.mssql Scenario.t_orders = Returned q
     /\ literals_of q
        = [odbc_conn Scenario.mssql;
           table_query Scenario.mssql "sales" "orders"
             (sort_order Scenario.t_orders);
           "s3://bucket/sales/orders/orders.parquet"; "parquet"; "ZSTD"])
  /\ (exists q,
        copy_statement Scenario.pg Scenario.t_orders = Returned q
        /\ literals_of q
           = [pg_conn Scenario.pg; "sales"; "orders";
              "s3://bucket/sales/orders/orders.parquet"; "parquet"; "ZSTD"]).
Proof.
  split.
  - apply (proj1 (copy_statement_literals Scenario.mssql Scenario.t_orders
                    eq_refl)).
    left. reflexivity.
  - apply (proj2 (copy_statement_literals Scenario.pg Scenario.t_orders
                    eq_refl)); reflexivity.
Defined.

(** ** Closing a ledger entry *)





(** ** One row per table *)

Lemma row_key_update (id status message finished_at : string)
  (r : LedgerEntry) :
  row_key (update_row id status message finished_at r) = row_key r.
Proof. unfold update_row. destruct (log_id r =? id); reflexivity. Qed.

Lemma ledger_after_keys (self : Exporter) (w : TableWorld) (t : TableInfo)
  (l : list LedgerEntry) :
  map row_key (ledger_after self w t l)
  = match insert_raises w with
    | Some _ => map row_key l
    | None => (map row_key l ++ [table_key self t])%list
    end.
Proof.
  unfold ledger_after. destruct (insert_raises w); [reflexivity|].
  assert (E : map row_key (l ++ [opened_row self w t])%list
              = (map row_key l ++ [table_key self t])%list)
    by (rewrite List.map_app; reflexivity).
  destruct (uuid4 w =? EmptyString); [exact E|].
  destruct (update_raises w); [exact E|].
  rewrite List.map_map, <- E. apply List.map_ext. intros r.
  apply row_key_update.
Qed.

Lemma loop_ledger_keys (self : Exporter) (rw : RunWorld)
  (tables : list TableInfo) :
  forall idx l,
    (forall j, idx <= j -> j < idx + List.length tables ->
               insert_raises (table_world rw j) = None) ->
    map row_key (loop_ledger self rw idx tables l)
    = (map row_key l ++ map (table_key self) tables)%list.
Proof.
  induction tables as [|t rest IH]; intros idx l H; cbn [loop_ledger map].
  - now rewrite List.app_nil_r.
  - rewrite IH.
    + rewrite ledger_after_keys, (H idx); [|lia | cbn [List.length]; lia].
      now rewrite <- List.app_assoc.
    + intros j H1 H2. apply H; [lia | cbn [List.length]; lia].
Qed.

Lemma loop_ledger_length (self : Exporter) (rw : RunWorld)
  (tables : list TableInfo) :
  forall idx l,
    List.length (loop_ledger self rw idx tables l)
    <= List.length l + List.length tables.
Proof.
  induction tables as [|t rest IH]; intros idx l; cbn [loop_ledger List.length].
  - lia.
  - specialize (IH (S idx) (ledger_after self (table_world rw idx) t l)).
    assert (H : List.length (ledger_after self (table_world rw idx) t l)
                <= S (List.length l)).
    { rewrite <- (List.length_map row_key), ledger_after_keys.
      destruct (insert_raises (table_world rw idx));
        rewrite ?List.length_app, List.length_map; cbn [List.length]; lia. }
    lia.
Qed.

(** The export of all tables adds at most one ledger row per table; when no
    ledger INSERT raises it adds exactly one per table, in discovery order,
    with the table's schema, name, full name and destination path. *)
Theorem ledger_rows_follow_tables (self : Exporter) (rw : RunWorld)
  (md : Metadata) (st : State) :
  List.length (export_logs (snd (export_all_tables self rw md st)))
  <= List.length (export_logs st) + List.length (tables md)
  /\ ((forall j, 1 <= j -> j <= List.length (tables md) ->
                 insert_raises (table_world rw j) = None) ->
      map row_key (export_logs (snd (export_all_tables self rw md st)))
      = (map row_key (export_logs st)
         ++ map (table_key self) (tables md))%list).
Proof.
  destruct (export_all_tables_closed_form self rw md st) as [_ [Hl _]].
  rewrite Hl. split; [apply loop_ledger_length|].
  intros H. apply loop_ledger_keys. intros j H1 H2. apply H; lia.
Qed.

Lemma ledger_rows_follow_tables_witness :
  map row_key
    (export_logs
       (snd (export_all_tables Scenario.pg
               (Scenario.healthy_run Scenario.second_copy_fails)
               Scenario.three_tables initial_state)))
  = (map row_key (export_logs initial_state)
     ++ map (table_key Scenario.pg) (tables Scenario.three_tables))%list.
Proof.
  apply (proj2 (ledger_rows_follow_tables Scenario.pg
                  (Scenario.healthy_run Scenario.second_copy_fails)
                  Scenario.three_tables initial_state)).
  intros j H1 H2. cbn in H2.
  destruct j as [|[|[|j]]]; reflexivity.
Defined.

(** A table whose export returns, with a new identifier and working ledger
    calls, leaves exactly one more row: 'success', with the destination in
    its message. *)
Theorem successful_export_recorded (self : Exporter) (w : TableWorld)
  (t : TableInfo) (st : State) :
  export_result self w t = Returned tt ->
  insert_raises w = None ->
  update_raises w = None ->
  uuid4 w <> EmptyString ->
  ~ In (uuid4 w) (map log_id (export_logs st)) ->
  fst (export_table_data self w t st) = Returned tt
  /\ export_logs (snd (export_table_data self w t st))
     = (export_logs st
        ++ [closed_row self w t "success"
              ("Exported to " ++ table_s3_path self (schema t) (name t))])%list.
Proof.
  intros Hr Hi Hu Hid Hfresh. rewrite export_table_data_closed_form.
  cbn [fst snd export_logs]. split; [exact Hr|].
  unfold ledger_after, closing_status. apply String.eqb_neq in Hid.
  rewrite Hi, Hid, Hu, Hr. cbn [fst snd].
  rewrite List.map_app, map_update_fresh by assumption. cbn [map].
  now rewrite update_opened_row.
Qed.

Lemma successful_export_recorded_witness :
  fst (export_table_data Scenario.pg Scenario.w_ok Scenario.t_orders
         initial_state) = Returned tt
  /\ export_logs (snd (export_table_data Scenario.pg Scenario.w_ok
                         Scenario.t_orders initial_state))
     = (export_logs initial_state
        ++ [closed_row Scenario.pg Scenario.w_ok Scenario.t_orders "success"
              ("Exported to "
               ++ table_s3_path Scenario.pg "sales" "orders")])%list.
Proof.
  apply (successful_export_recorded Scenario.pg Scenario.w_ok
           Scenario.t_orders initial_state).
  - reflexivity.
  - reflexivity.
  - reflexivity.
  - discriminate.
  - intros [].
Defined.

(** * The ledger flush *)

Lemma local_path_of_keeps_sep (s : string) :
  PyStr.contains_char "/" s = true ->
  PyStr.contains_char "/" (local_path_of s) = true.
Proof.
  unfold local_path_of, PyStr.replace.
  induction s as [|c s IH]; [discriminate|].
  intros H. cbn [PyStr.replace_scan].
  destruct (PyStr.startswith "s3://" (String c s)).
  - reflexivity.
  - cbn [PyStr.contains_char] in *.
    destruct (Ascii.eqb c "/"); [reflexivity | exact (IH H)].
Qed.

Lemma rstrip_sep_empty (s : string) :
  PosixPath.rstrip_sep s = EmptyString -> PosixPath.all_seps s = true.
Proof.
  induction s as [|c s IH]; [reflexivity|].
  cbn [PosixPath.rstrip_sep PosixPath.all_seps].
  destruct (Ascii.eqb c "/"); cbn [andb]; [|discriminate].
  destruct (PosixPath.rstrip_sep s =? EmptyString) eqn:E; [|discriminate].
  intros _. apply IH. now apply String.eqb_eq.
Qed.

(** A path that holds a separator has a directory. *)
Lemma dirname_nonempty (p : string) :
  PyStr.contains_char "/" p = true -> PosixPath.dirname p <> EmptyString.
Proof.
  intros H. unfold PosixPath.dirname.
  destruct p as [|c p]; [discriminate|].
  cbn [PosixPath.upto_last_sep]. rewrite H.
  set (head := String c (PosixPath.upto_last_sep p)).
  change (negb (head =? EmptyString)) with true. cbn [andb].
  destruct (PosixPath.all_seps head) eqn:E; cbn [negb].
  - discriminate.
  - intros R. apply rstrip_sep_empty in R. congruence.
Qed.

Lemma logs_dir_nonempty (self : Exporter) (rw : RunWorld) :
  logs_dir self rw <> EmptyString.
Proof.
  apply dirname_nonempty, local_path_of_keeps_sep.
  unfold s3_logs_path. rewrite StringFacts.contains_char_app.
  apply Bool.orb_true_iff. right. reflexivity.
Qed.

(** [_write_progress_to_s3] never changes the ledger.  When object storage
    takes the file it returns and leaves the local disk alone.  When object
    storage refuses, it returns as soon as the local directory can be made,
    whatever happens to the local file afterwards; it raises in one case
    only, when the directory cannot be made, and then with the exception of
    [os.makedirs].  The directory is never the empty name, whatever the
    bucket path is. *)
Theorem write_progress_outcome (self : Exporter) (rw : RunWorld) (st : State) :
  export_logs (snd (_write_progress_to_s3 self rw st)) = export_logs st
  /\ (flush_copy_raises rw = None ->
      fst (_write_progress_to_s3 self rw st) = Returned tt
      /\ local_files (snd (_write_progress_to_s3 self rw st)) = local_files st
      /\ local_dirs (snd (_write_progress_to_s3 self rw st)) = local_dirs st)
  /\ (flush_copy_raises rw <> None ->
      makedirs_raises rw (logs_dir self rw) = None ->
      fst (_write_progress_to_s3 self rw st) = Returned tt)
  /\ (forall e',
        flush_copy_raises rw <> None ->
        makedirs_raises rw (logs_dir self rw) = Some e' ->
        fst (_write_progress_to_s3 self rw st) = Raised e'
        /\ local_files (snd (_write_progress_to_s3 self rw st))
           = local_files st).
Proof.
  split; [apply quiet_write_progress|].
  pose proof (logs_dir_nonempty self rw) as Hd. apply String.eqb_neq in Hd.
  unfold logs_dir, s3_logs_path in *.
  destruct (flush_copy_raises rw) as [e|] eqn:Hc.
  - split; [discriminate|]. split.
    + intros _ Hm.
      destruct (flush_select_raises rw) as [e2|] eqn:Hs;
        destruct (open_raises rw
                    (PyStr.replace ".parquet" ".csv"
                       (local_path_of
                          (s3_bucket_path self ++ "/logs/export_log_"
                           ++ utcnow_flush rw ++ ".parquet")))) as [e3|] eqn:Ho;
        unfold _write_progress_to_s3, try_except, execute, makedirs,
          write_file, bind, print, emit, raise, ret;
        rewrite Hc, Hd, Hm, Hs, ?Ho; reflexivity.
    + intros e' _ Hm.
      unfold _write_progress_to_s3, try_except, execute, makedirs,
        write_file, bind, print, emit, raise, ret.
      rewrite Hc, Hd, Hm. split; reflexivity.
  - split.
    + intros _.
      unfold _write_progress_to_s3, try_except, execute, makedirs,
        write_file, bind, print, emit, raise, ret.
      rewrite Hc. repeat split.
    + split; [intros H; now contradiction H | intros e' H; now contradiction H].
Qed.

Lemma write_progress_outcome_witness :
  fst (_write_progress_to_s3 Scenario.pg Scenario.ledger_offline_run
         initial_state) = Returned tt
  /\ fst (_write_progress_to_s3 Scenario.pg Scenario.ledger_unwritable_run
            initial_state) = Raised Scenario.read_only.
Proof.
  split.
  - destruct (write_progress_outcome Scenario.pg Scenario.ledger_offline_run
                initial_state) as [_ [_ [H _]]].
    apply H; [discriminate | reflexivity].
  - destruct (write_progress_outcome Scenario.pg
                Scenario.ledger_unwritable_run initial_state)
      as [_ [_ [_ H]]].
    apply (H Scenario.read_only); [discriminate | reflexivity].
Defined.









(** * The metadata artifacts *)

Lemma executed_app (a b : list event) :
  executed (a ++ b) = (executed a ++ executed b)%list.
Proof.
  induction a as [|[l|l|q] a IH]; cbn [app executed]; [reflexivity| | |];
    now rewrite IH.
Qed.











(** * Runs that end before the export *)




(** * The initialisation of the engine *)

Lemma attempt_app (raises : string -> option exn) (a b : list string) :
  attempt raises (a ++ b)
  = match snd (attempt raises a) with
    | Some e => attempt raises a
    | None => (fst (attempt raises a) ++ fst (attempt raises b),
               snd (attempt raises b))%list
    end.
Proof.
  induction a as [|q a IH]; cbn [app attempt].
  - cbn [fst snd app]. now destruct (attempt raises b).
  - destruct (raises q) as [e|]; cbn [fst snd]; [reflexivity|].
    rewrite IH. destruct (snd (attempt raises a)) as [e|] eqn:E;
      cbn [fst snd app]; [|reflexivity].
    rewrite E. reflexivity.
Qed.

Lemma attempts_quiet (raises : string -> option exn) (m : M unit)
  (evs : list event) :
  runs m (Returned tt) (fun l => l) evs ->
  executed evs = [] ->
  attempts raises m [].
Proof.
  intros H Hx st. exists evs. rewrite (H st). split; [reflexivity | exact Hx].
Qed.

Lemma attempts_execute (raises : string -> option exn) (sql : string) :
  attempts raises (execute (raises sql) sql) [sql].
Proof.
  intros st. exists [Execute sql]. cbn [attempt].
  destruct (raises sql) as [e|]; split; reflexivity.
Qed.

Lemma attempts_bind (raises : string -> option exn) (m : M unit)
  (k : unit -> M unit) (qs1 qs2 : list string) :
  attempts raises m qs1 ->
  attempts raises (k tt) qs2 ->
  attempts raises (bind m k) (qs1 ++ qs2).
Proof.
  intros H1 H2 st. destruct (H1 st) as [evs1 [E1 X1]].
  rewrite attempt_app. unfold bind. rewrite E1.
  destruct (snd (attempt raises qs1)) as [e|] eqn:R.
  - exists evs1. rewrite R. split; [reflexivity | exact X1].
  - destruct (H2 (mkState (export_logs st) (events st ++ evs1)%list
                    (local_dirs st) (local_files st))) as [evs2 [E2 X2]].
    exists (evs1 ++ evs2)%list. rewrite E2.
    cbn [fst snd export_logs events local_dirs local_files].
    rewrite <- List.app_assoc. split; [reflexivity|].
    now rewrite executed_app, X1, X2.
Qed.

Lemma attempts_print_then (raises : string -> option exn) (line : string)
  (m : M unit) (qs : list string) :
  attempts raises m qs -> attempts raises (print line ;; m) qs.
Proof.
  intros H. change qs with ([] ++ qs)%list.
  apply attempts_bind; [|exact H].
  apply (attempts_quiet raises _ [Print line]);
    [apply runs_print | reflexivity].
Qed.

Lemma attempts_then_print (raises : string -> option exn) (line : string)
  (m : M unit) (qs : list string) :
  attempts raises m qs -> attempts raises (m ;; print line) qs.
Proof.
  intros H. rewrite <- (List.app_nil_r qs).
  apply attempts_bind; [exact H|].
  apply (attempts_quiet raises _ [Print line]);
    [apply runs_print | reflexivity].
Qed.

Lemma attempts_two (raises : string -> option exn) (a b : string) :
  attempts raises (execute (raises a) a ;; execute (raises b) b) [a; b].
Proof.
  change [a; b] with ([a] ++ [b])%list.
  apply attempts_bind; apply attempts_execute.
Qed.

Lemma attempts_scanner (self : Exporter) (ew : EngineWorld) :
  attempts (statement_raises ew)
    (if db_type self =? "sqlserver" then
       print "Installing nanodbc extension for SQL Server..." ;;
       execute (statement_raises ew "INSTALL nanodbc FROM community;")
         "INSTALL nanodbc FROM community;" ;;
       execute (statement_raises ew "LOAD nanodbc;") "LOAD nanodbc;"
     else if db_type self =? "postgresql" then
       print "Installing PostgreSQL scanner extension..." ;;
       execute (statement_raises ew "INSTALL postgres;") "INSTALL postgres;" ;;
       execute (statement_raises ew "LOAD postgres;") "LOAD postgres;"
     else if db_type self =? "oracle" then
       print "Installing nanodbc extension for Oracle..." ;;
       execute (statement_raises ew "INSTALL nanodbc FROM community;")
         "INSTALL nanodbc FROM community;" ;;
       execute (statement_raises ew "LOAD nanodbc;") "LOAD nanodbc;"
     else ret tt)
    (scanner_statements (db_type self)).
Proof.
  unfold scanner_statements.
  destruct (db_type self =? "sqlserver");
    [apply attempts_print_then, attempts_two|].
  destruct (db_type self =? "postgresql");
    [apply attempts_print_then, attempts_two|].
  destruct (db_type self =? "oracle");
    [apply attempts_print_then, attempts_two|].
  apply (attempts_quiet _ _ []); [apply runs_ret | reflexivity].
Qed.

Lemma attempts_secret (s3 : S3Settings) (ew : EngineWorld) :
  attempts (statement_raises ew)
    (if truthy (aws_profile s3) then
       print ("Using AWS profile: " ++ fmt (aws_profile s3)) ;;
       set_environ "AWS_PROFILE" (fmt (aws_profile s3)) ;;
       execute (statement_raises ew (credential_chain_secret s3))
         (credential_chain_secret s3) ;;
       print ("Created AWS secret using credential chain (profile: "
              ++ fmt (aws_profile s3) ++ ")")
     else if truthy (s3_access_key s3) && truthy (s3_secret_key s3) then
       (if truthy (s3_session_token s3)
        then print "Creating AWS secret with temporary credentials (session token)"
        else print "Creating AWS secret with static credentials") ;;
       execute (statement_raises ew (explicit_secret s3)) (explicit_secret s3)
     else ret tt)
    (secret_statements s3).
Proof.
  unfold secret_statements.
  destruct (truthy (aws_profile s3)).
  - apply attempts_print_then.
    change [credential_chain_secret s3]
      with ([] ++ [credential_chain_secret s3])%list.
    apply attempts_bind.
    + apply (attempts_quiet _ _ []); [apply runs_ret | reflexivity].
    + apply attempts_then_print, attempts_execute.
  - destruct (truthy (s3_access_key s3) && truthy (s3_secret_key s3)).
    + change [explicit_secret s3] with ([] ++ [explicit_secret s3])%list.
      apply attempts_bind; [|apply attempts_execute].
      destruct (truthy (s3_session_token s3));
        eapply attempts_quiet; try apply runs_print; reflexivity.
    + apply (attempts_quiet _ _ []); [apply runs_ret | reflexivity].
Qed.

(** Once the engine is connected, [initialize_duckdb] hands its statements
    to the engine in one order (httpfs, the scanner of the source if the
    source is a known one, at most one secret, the ledger table last) and
    stops at the first the engine refuses, with the exception of that one:
    a secret that cannot be made ends the initialisation, and the ledger
    table is made only when everything before it worked.  A source that is
    not a known one is not refused here: only its scanner is left out. *)
Theorem initialize_duckdb_fail_stop (self : Exporter) (s3 : S3Settings)
  (ew : EngineWorld) (st : State) :
  memory_connect_raises ew = None ->
  fst (initialize_duckdb self s3 ew st)
  = match snd (attempt (statement_raises ew) (initialize_statements self s3))
    with
    | Some e => Raised e
    | None => Returned tt
    end
  /\ executed (events (snd (initialize_duckdb self s3 ew st)))
     = (executed (events st)
        ++ fst (attempt (statement_raises ew)
                  (initialize_statements self s3)))%list
  /\ export_logs (snd (initialize_duckdb self s3 ew st)) = export_logs st
  /\ local_files (snd (initialize_duckdb self s3 ew st)) = local_files st.
Proof.
  intros Hc.
  assert (H : attempts (statement_raises ew) (initialize_duckdb self s3 ew)
                (initialize_statements self s3)).
  { unfold initialize_duckdb, initialize_statements, _init_progress_table.
    rewrite Hc. cbv beta zeta.
    apply attempts_print_then.
    change (?a ++ ?b)%list with ([] ++ (a ++ b))%list at 1.
    apply attempts_bind;
      [apply (attempts_quiet _ _ []); [apply runs_ret | reflexivity]|].
    change ([?a; ?b] ++ ?l)%list with ([a] ++ ([b] ++ l))%list.
    apply attempts_bind; [apply attempts_execute|].
    apply attempts_bind; [apply attempts_execute|].
    apply attempts_bind; [apply attempts_scanner|].
    apply attempts_bind; [apply attempts_secret|].
    apply attempts_print_then, attempts_execute. }
  destruct (H st) as [evs [E X]]. rewrite E.
  cbn [fst snd events export_logs local_files].
  rewrite executed_app, X. repeat split.
Qed.

Lemma initialize_duckdb_fail_stop_witness :
  fst (initialize_duckdb Scenario.pg Scenario.temporary_keys
         Scenario.no_scanner initial_state)
  = match snd (attempt (statement_raises Scenario.no_scanner)
                 (initialize_statements Scenario.pg Scenario.temporary_keys))
    with
    | Some e => Raised e
    | None => Returned tt
    end
  /\ executed (events (snd (initialize_duckdb Scenario.pg
                              Scenario.temporary_keys Scenario.no_scanner
                              initial_state)))
     = (executed (events initial_state)
        ++ fst (attempt (statement_raises Scenario.no_scanner)
                  (initialize_statements Scenario.pg
                     Scenario.temporary_keys)))%list.
Proof.
  destruct (initialize_duckdb_fail_stop Scenario.pg Scenario.temporary_keys
              Scenario.no_scanner initial_state) as [H1 [H2 _]].
  - reflexivity.
  - split; [exact H1 | exact H2].
Defined.

(** With an AWS profile configured, the access key, the secret key and the
    session token have no effect on the initialisation: it runs as if they
    were not configured.  Without profile, an access key without secret key
    (or the reverse) has no effect either, nor has a session token given
    with it: the initialisation runs as with no credentials at all, makes no
    secret and reports nothing. *)
Theorem credentials_precedence (self : Exporter) (s3 : S3Settings)
  (ew : EngineWorld) (st : State) :
  (truthy (aws_profile s3) = true ->
   initialize_duckdb self s3 ew st
   = initialize_duckdb self
       (mkS3Settings None None None (s3_region s3) (aws_profile s3)) ew st)
  /\ (truthy (aws_profile s3) = false ->
      truthy (s3_access_key s3) && truthy (s3_secret_key s3) = false ->
      initialize_duckdb self s3 ew st
      = initialize_duckdb self
          (mkS3Settings None None None (s3_region s3) None) ew st).
Proof.
  split.
  - intros Hp. unfold initialize_duckdb.
    cbn [aws_profile s3_region s3_access_key s3_secret_key s3_session_token].
    rewrite Hp. reflexivity.
  - intros Hp Hk. unfold initialize_duckdb.
    cbn [aws_profile s3_region s3_access_key s3_secret_key s3_session_token
         truthy andb].
    rewrite Hp, Hk. reflexivity.
Qed.

Lemma credentials_precedence_witness :
  initialize_duckdb Scenario.pg Scenario.with_profile Scenario.no_scanner
    initial_state
  = initialize_duckdb Scenario.pg
      (mkS3Settings None None None (s3_region Scenario.with_profile)
         (aws_profile Scenario.with_profile))
      Scenario.no_scanner initial_state
  /\ initialize_duckdb Scenario.pg Scenario.half_keys Scenario.no_scanner
       initial_state
     = initialize_duckdb Scenario.pg
         (mkS3Settings None None None (s3_region Scenario.half_keys) None)
         Scenario.no_scanner initial_state.
Proof.
  split.
  - destruct (credentials_precedence Scenario.pg Scenario.with_profile
                Scenario.no_scanner initial_state) as [H _].
    apply H. reflexivity.
  - destruct (credentials_precedence Scenario.pg Scenario.half_keys
                Scenario.no_scanner initial_state) as [_ H].
    apply H; reflexivity.
Defined.

(** The secret made from explicit credentials carries, as the engine reads
    it, the access key, the secret key and the region, then the session
    token when there is one.  None of them is escaped, so each must hold no
    quote. *)
Theorem explicit_secret_literals (s3 : S3Settings) :
  sq_free (fmt (s3_access_key s3)) ->
  sq_free (fmt (s3_secret_key s3)) ->
  sq_free (s3_region s3) ->
  sq_free (fmt (s3_session_token s3)) ->
  literals_of (explicit_secret s3)
  = ([fmt (s3_access_key s3); fmt (s3_secret_key s3); s3_region s3]
     ++ (if truthy (s3_session_token s3)
         then [fmt (s3_session_token s3)] else []))%list.
Proof.
  intros Hk Hs Hr Ht. unfold explicit_secret, secret_params.
  destruct (truthy (s3_session_token s3)); read_literals_skipping;
    reflexivity.
Qed.

Lemma explicit_secret_literals_witness :
  literals_of (explicit_secret Scenario.temporary_keys)
  = ([fmt (s3_access_key Scenario.temporary_keys);
      fmt (s3_secret_key Scenario.temporary_keys);
      s3_region Scenario.temporary_keys]
     ++ (if truthy (s3_session_token Scenario.temporary_keys)
         then [fmt (s3_session_token Scenario.temporary_keys)] else []))%list.
Proof.
  apply (explicit_secret_literals Scenario.temporary_keys); reflexivity.
Defined.
